(** * PowerHintSession: the per-session ADPF controller of the power HAL

    A shallow embedding of [aidl/power-libperfmgr/PowerHintSession.cpp]
    and [PowerHintSession.h]: the session descriptor, the guarded state
    machine (pause / resume / close), the target update, the PID boost
    computation and the hint, mode and thread-set operations, followed by
    the properties of the session contract.

    Conventions of the embedding.
    - Fixed-width C++ integers are [Z]; arithmetic on them wraps at the
      width of its type, written out with [Int.to_int64], [Int.to_int32],
      [Int.to_uint64] and [Int.to_uint32].
    - [double] is IEEE 754 binary64, [spec_float] at precision 53 and
      exponent bound 1024, with round-to-nearest-even operations.
    - An integer division by zero and a floating-point value converted to
      an integer type that cannot hold it are undefined in C++ and have no
      result here: the methods live in a monad whose outcome is an
      [option].
    - What a call does to the session manager, the hint manager, the error
      log and the trace counters is collected as a list of [Event]s; the
      verbose and warning log lines are left out.  A trace counter takes
      its value as an [int32_t]: a wider value is narrowed on the way,
      written out with [Int.to_int32].
    - One public call is one sequential step: every read of the steady
      clock and of the active ADPF profile inside a call yields the value
      carried by the call's [Env]. *)

From Stdlib Require Import ZArith Lia Bool List String.
From Stdlib Require Import Floats.SpecFloat.
From stdpp Require Import base option list strings gmap.

Local Open Scope string_scope.
Local Open Scope list_scope.
Local Open Scope Z_scope.

(** ** Fixed-width integers *)

Module Int.

Definition to_unsigned (w z : Z) : Z := z mod 2 ^ w.

Definition to_signed (w z : Z) : Z :=
  (z + 2 ^ (w - 1)) mod 2 ^ w - 2 ^ (w - 1).

Definition to_int64 : Z -> Z := to_signed 64.
Definition to_int32 : Z -> Z := to_signed 32.
Definition to_uint64 : Z -> Z := to_unsigned 64.
Definition to_uint32 : Z -> Z := to_unsigned 32.

Definition INT64_MIN : Z := - 2 ^ 63.
Definition INT64_MAX : Z := 2 ^ 63 - 1.
Definition INT_MAX : Z := 2 ^ 31 - 1.
Definition UINT64_MAX : Z := 2 ^ 64 - 1.

Definition is_int64 (z : Z) : Prop := INT64_MIN <= z <= INT64_MAX.
Definition is_uint64 (z : Z) : Prop := 0 <= z <= UINT64_MAX.

(** C++ [a / b] on [int64_t]: truncating; no result when [b = 0] or when
    the quotient overflows. *)
Definition div64 (a b : Z) : option Z :=
  if b =? 0 then None
  else if (a =? INT64_MIN) && (b =? -1) then None
  else Some (Z.quot a b).

End Int.

(** ** IEEE 754 binary64 *)

Module Double.

Definition double : Type := spec_float.

Definition prec : Z := 53.
Definition emax : Z := 1024.

Definition mul : double -> double -> double := SFmul prec emax.
Definition div : double -> double -> double := SFdiv prec emax.

(** Integer to [double] conversion (round to nearest even). *)
Definition of_int (z : Z) : double := binary_normalize prec emax z 0 false.

(** The integer part of a finite [double], rounded toward zero. *)
Definition trunc (x : double) : option Z :=
  match x with
  | S754_zero _ => Some 0
  | S754_finite s m e =>
      let a := if 0 <=? e then Z.pos m * 2 ^ e else Z.pos m / 2 ^ (- e) in
      Some (if s then - a else a)
  | S754_infinity _ | S754_nan => None
  end.

(** [static_cast<int64_t>(x)]: defined only when the truncated value is
    representable. *)
Definition to_int64 (x : double) : option Z :=
  match trunc x with
  | Some v =>
      if (Int.INT64_MIN <=? v) && (v <=? Int.INT64_MAX) then Some v else None
  | None => None
  end.

Definition one : double := Eval vm_compute in of_int 1.
Definition two : double := Eval vm_compute in of_int 2.
Definition half : double := Eval vm_compute in div one two.

End Double.

Abbreviation double := Double.double.

(** [ns_to_100us]: nanoseconds to units of 100 microseconds. *)
Definition ns_to_100us (ns : Z) : Z := Z.quot ns 100000.

(** ** The ADPF profile and the platform

    [AdpfConfig] is declared in libperfmgr ([perfmgr/AdpfConfig.h]); the
    session reads the fields below.  [getPidIHighDivI] and
    [getPidILowDivI] are the [int64_t] results of the profile's accessors
    of those names. *)

Record AdpfConfig : Type := mkAdpfConfig {
  mPidOn : bool;
  mPidPo : double;
  mPidPu : double;
  mPidI : double;
  mPidDo : double;
  mPidDu : double;
  getPidIHighDivI : Z;
  getPidILowDivI : Z;
  mSamplingWindowP : Z;
  mSamplingWindowI : Z;
  mSamplingWindowD : Z;
  mUclampMinInit : Z;
  mUclampMinHigh : Z;
  mUclampMinLow : Z;
  mStaleTimeFactor : double;
  mTargetTimeFactor : double
}.

(** What one call sees of its surroundings: the active profile
    ([HintManager::GetAdpfProfile]), the steady clock, the hint manager's
    [IsHintSupported], and the constants [kUclampMax]
    (PowerSessionManager.h) and [AID_APP_START]
    (android_filesystem_config.h). *)
Record Env : Type := mkEnv {
  profile : AdpfConfig;
  now : Z;
  IsHintSupported : string -> bool;
  kUclampMax : Z;
  AID_APP_START : Z
}.

(** ** AIDL types *)

Inductive ScopedAStatus : Type :=
| ok
| EX_ILLEGAL_ARGUMENT
| EX_ILLEGAL_STATE.

(** [SessionHint] and [SessionMode] are integer-backed AIDL enums: a
    caller can pass any value, the ones without a name here included. *)
Inductive SessionHint : Type :=
| CPU_LOAD_UP
| CPU_LOAD_DOWN
| CPU_LOAD_RESET
| CPU_LOAD_RESUME
| SessionHint_other (raw : Z).

Inductive SessionMode : Type :=
| POWER_EFFICIENCY
| SessionMode_other (raw : Z).

Definition SessionHint_value (h : SessionHint) : Z :=
  match h with
  | CPU_LOAD_UP => 0
  | CPU_LOAD_DOWN => 1
  | CPU_LOAD_RESET => 2
  | CPU_LOAD_RESUME => 3
  | SessionHint_other raw => raw
  end.

Definition SessionHint_toString (h : SessionHint) : string :=
  match h with
  | CPU_LOAD_UP => "CPU_LOAD_UP"
  | CPU_LOAD_DOWN => "CPU_LOAD_DOWN"
  | CPU_LOAD_RESET => "CPU_LOAD_RESET"
  | CPU_LOAD_RESUME => "CPU_LOAD_RESUME"
  | SessionHint_other _ => "UNKNOWN"
  end.

Definition SessionMode_index (m : SessionMode) : nat :=
  match m with
  | POWER_EFFICIENCY => 0%nat
  | SessionMode_other raw => Z.to_nat raw
  end.

Inductive AdpfHintType : Type :=
| ADPF_VOTE_DEFAULT
| ADPF_CPU_LOAD_UP
| ADPF_CPU_LOAD_RESET
| ADPF_CPU_LOAD_RESUME.

(** ** The session *)

Record AppHintDesc : Type := mkAppHintDesc {
  sessionId : Z;
  tgid : Z;
  uid : Z;
  targetNs : Z;
  pidSetPoint : Z;
  is_active : bool;
  update_count : Z;
  integral_error : Z;
  previous_error : Z
}.

(** [mSupportedHints] maps a hint name to [std::optional<bool>]; a name
    that is absent and a name bound to an empty optional are both "no
    value" here. *)
Record PowerHintSession : Type := mkPowerHintSession {
  mSessionId : Z;
  mDescriptor : AppHintDesc;
  mLastUpdatedTime : Z;
  mSessionClosed : bool;
  mSupportedHints : gmap string bool;
  mLastHintSent : Z;
  mModes : list bool
}.

Definition set_targetNs (v : Z) (d : AppHintDesc) : AppHintDesc :=
  mkAppHintDesc (sessionId d) (tgid d) (uid d) v (pidSetPoint d)
    (is_active d) (update_count d) (integral_error d) (previous_error d).

Definition set_pidSetPoint (v : Z) (d : AppHintDesc) : AppHintDesc :=
  mkAppHintDesc (sessionId d) (tgid d) (uid d) (targetNs d) v
    (is_active d) (update_count d) (integral_error d) (previous_error d).

Definition set_is_active (v : bool) (d : AppHintDesc) : AppHintDesc :=
  mkAppHintDesc (sessionId d) (tgid d) (uid d) (targetNs d) (pidSetPoint d)
    v (update_count d) (integral_error d) (previous_error d).

Definition set_update_count (v : Z) (d : AppHintDesc) : AppHintDesc :=
  mkAppHintDesc (sessionId d) (tgid d) (uid d) (targetNs d) (pidSetPoint d)
    (is_active d) v (integral_error d) (previous_error d).

Definition set_pid_errors (ie pe : Z) (d : AppHintDesc) : AppHintDesc :=
  mkAppHintDesc (sessionId d) (tgid d) (uid d) (targetNs d) (pidSetPoint d)
    (is_active d) (update_count d) ie pe.

Definition with_descriptor (f : AppHintDesc -> AppHintDesc)
    (s : PowerHintSession) : PowerHintSession :=
  mkPowerHintSession (mSessionId s) (f (mDescriptor s)) (mLastUpdatedTime s)
    (mSessionClosed s) (mSupportedHints s) (mLastHintSent s) (mModes s).

Definition set_mLastUpdatedTime (t : Z) (s : PowerHintSession)
    : PowerHintSession :=
  mkPowerHintSession (mSessionId s) (mDescriptor s) t
    (mSessionClosed s) (mSupportedHints s) (mLastHintSent s) (mModes s).

Definition set_mSessionClosed (b : bool) (s : PowerHintSession)
    : PowerHintSession :=
  mkPowerHintSession (mSessionId s) (mDescriptor s) (mLastUpdatedTime s)
    b (mSupportedHints s) (mLastHintSent s) (mModes s).

Definition set_mSupportedHints (m : gmap string bool) (s : PowerHintSession)
    : PowerHintSession :=
  mkPowerHintSession (mSessionId s) (mDescriptor s) (mLastUpdatedTime s)
    (mSessionClosed s) m (mLastHintSent s) (mModes s).

Definition set_mLastHintSent (v : Z) (s : PowerHintSession)
    : PowerHintSession :=
  mkPowerHintSession (mSessionId s) (mDescriptor s) (mLastUpdatedTime s)
    (mSessionClosed s) (mSupportedHints s) v (mModes s).

Definition set_mModes (l : list bool) (s : PowerHintSession)
    : PowerHintSession :=
  mkPowerHintSession (mSessionId s) (mDescriptor s) (mLastUpdatedTime s)
    (mSessionClosed s) (mSupportedHints s) (mLastHintSent s) l.

(** ** Events: calls on the collaborators, log lines and trace counters *)

Inductive ManagerCall : Type :=
| addPowerSession (sid : Z) (threadIds : list Z)
| removePowerSession (sid : Z)
| voteSet (sid : Z) (kind : AdpfHintType) (value maxValue : Z)
    (timestamp validDuration : Z)
| mgr_updateTargetWorkDuration (sid : Z) (kind : AdpfHintType) (target : Z)
| disableBoosts (sid : Z)
| mgr_pause (sid : Z)
| mgr_resume (sid : Z)
| updateUniversalBoostMode
| setThreadsFromPowerSession (sid : Z) (threadIds : list Z).

Inductive TraceCounter : Type :=
| trace_target | trace_active | trace_min | trace_actl_last
| trace_batch_size | trace_hint_count | trace_hint_overtime
| trace_is_first_frame | trace_session_hint | trace_mode (index : nat)
| trace_pid_err | trace_pid_integral | trace_pid_derivative
| trace_pid_pOut | trace_pid_iOut | trace_pid_dOut | trace_pid_output.

Inductive Event : Type :=
| PSManager (c : ManagerCall)
| DoHint (hint : string)
| ALOGE (msg : string)
| ATRACE_INT (counter : TraceCounter) (value : Z).

(** ** The monad of a session method

    A method reads and writes the session, emits events, and has no
    result where C++ gives it none. *)

Definition M (A : Type) : Type :=
  PowerHintSession -> option (A * PowerHintSession * list Event).

Definition M_ret {A} (a : A) : M A := fun s => Some (a, s, []).

Definition M_bind {A B} (f : A -> M B) (m : M A) : M B :=
  fun s =>
    match m s with
    | None => None
    | Some (a, s1, ev1) =>
        match f a s1 with
        | None => None
        | Some (b, s2, ev2) => Some (b, s2, ev1 ++ ev2)
        end
    end.

#[export] Instance M_mret : MRet M := @M_ret.
#[export] Instance M_mbind : MBind M := @M_bind.

Definition get : M PowerHintSession := fun s => Some (s, s, []).
Definition modify (f : PowerHintSession -> PowerHintSession) : M unit :=
  fun s => Some (tt, f s, []).
Definition emit (e : Event) : M unit := fun s => Some (tt, s, [e]).
Definition defined {A} (o : option A) : M A :=
  fun s => match o with Some a => Some (a, s, []) | None => None end.

Definition bool_to_Z (b : bool) : Z := if b then 1 else 0.

(** ** Private helpers of [PowerHintSession] *)

Record WorkDuration : Type := mkWorkDuration {
  timeStampNanos : Z;
  durationNanos : Z
}.

(** [targetNs * mStaleTimeFactor] as a whole number of nanoseconds: the
    product is formed in [double] and converted back. *)
Definition stale_duration (cfg : AdpfConfig) (target : Z) : option Z :=
  Double.to_int64 (Double.mul (Double.of_int target) (mStaleTimeFactor cfg)).

(** [targetNs * mStaleTimeFactor / 2.0]. *)
Definition half_stale_duration (cfg : AdpfConfig) (target : Z) : option Z :=
  Double.to_int64
    (Double.div (Double.mul (Double.of_int target) (mStaleTimeFactor cfg))
       Double.two).

Definition isTimeout (env : Env) : M bool :=
  s ← get;
  d ← defined (stale_duration (profile env) (targetNs (mDescriptor s)));
  let staleTime := Int.to_int64 (mLastUpdatedTime s + d) in
  mret (staleTime <=? now env).

Definition isActive : M bool :=
  s ← get; mret (is_active (mDescriptor s)).

Definition isAppSession (env : Env) : M bool :=
  s ← get; mret (AID_APP_START env <=? uid (mDescriptor s)).

Definition updatePidSetPoint (env : Env) (setPoint : Z) (updateVote : bool)
    : M unit :=
  modify (with_descriptor (set_pidSetPoint setPoint));;
  (if updateVote then
     s ← get;
     d ← defined (stale_duration (profile env) (targetNs (mDescriptor s)));
     emit (PSManager (voteSet (mSessionId s) ADPF_VOTE_DEFAULT setPoint
                        (kUclampMax env) (now env) d))
   else mret tt);;
  emit (ATRACE_INT trace_min setPoint).

Definition tryToSendPowerHint (env : Env) (hint : string) : M unit :=
  s ← get;
  (if mSupportedHints s !! hint is Some _ then mret tt
   else modify (set_mSupportedHints
                  (<[hint := IsHintSupported env hint]> (mSupportedHints s))));;
  s ← get;
  if mSupportedHints s !! hint is Some true then emit (DoHint hint)
  else mret tt.

(** ** The PID computation *)

(** Start index of a sampling window of size [samplingWindow] over
    [length] samples; the comparison and the subtraction are made in
    [uint64_t], the result is stored in an [int64_t]. *)
Definition window_start (samplingWindow length : Z) : Z :=
  if (samplingWindow =? 0) || (Int.to_uint64 length <? samplingWindow) then 0
  else Int.to_int64 (Int.to_uint64 (Int.to_uint64 length - samplingWindow)).

Record PidAcc : Type := mkPidAcc {
  acc_derivative_sum : Z;
  acc_err_sum : Z;
  acc_integral_error : Z;
  acc_previous_error : Z
}.

(** The clamp of the integral accumulator, [std::min] with the high bound
    first and [std::max] with the low bound second. *)
Definition clamp_integral (cfg : AdpfConfig) (x : Z) : Z :=
  Z.max (getPidILowDivI cfg) (Z.min (getPidIHighDivI cfg) x).

(** One iteration of the loop, at index [i] with sample [a]. *)
Definition pid_step (cfg : AdpfConfig) (target dt p_start i_start d_start : Z)
    (i a : Z) (acc : PidAcc) : PidAcc :=
  let error := ns_to_100us (Int.to_int64 (a - target)) in
  mkPidAcc
    (if d_start <=? i
     then Int.to_int64 (acc_derivative_sum acc
                        + Int.to_int64 (error - acc_previous_error acc))
     else acc_derivative_sum acc)
    (if p_start <=? i
     then Int.to_int64 (acc_err_sum acc + error)
     else acc_err_sum acc)
    (if i_start <=? i
     then clamp_integral cfg
            (Int.to_int64 (acc_integral_error acc + Int.to_int64 (error * dt)))
     else acc_integral_error acc)
    error.

(** The loop over the samples [ds] that sit at indices [i], [i+1], ... *)
Fixpoint pid_loop (cfg : AdpfConfig) (target dt p_start i_start d_start : Z)
    (i : Z) (ds : list WorkDuration) (acc : PidAcc) : PidAcc :=
  match ds with
  | [] => acc
  | a :: rest =>
      pid_loop cfg target dt p_start i_start d_start (i + 1) rest
        (pid_step cfg target dt p_start i_start d_start i (durationNanos a) acc)
  end.

(** The accumulators after the whole loop of
    [convertWorkDurationToBoostByPid]. *)
Definition pid_accumulate (cfg : AdpfConfig) (d : AppHintDesc)
    (actualDurations : list WorkDuration) : PidAcc :=
  let target := targetNs d in
  let length := Z.of_nat (List.length actualDurations) in
  let p_start := window_start (mSamplingWindowP cfg) length in
  let i_start := window_start (mSamplingWindowI cfg) length in
  let d_start := window_start (mSamplingWindowD cfg) length in
  let dt := ns_to_100us target in
  let first := Z.min p_start (Z.min i_start d_start) in
  pid_loop cfg target dt p_start i_start d_start first
    (drop (Z.to_nat first) actualDurations)
    (mkPidAcc 0 0 (integral_error d) (previous_error d)).

Definition convertWorkDurationToBoostByPid (env : Env)
    (actualDurations : list WorkDuration) : M Z :=
  s ← get;
  let cfg := profile env in
  let length := Z.of_nat (List.length actualDurations) in
  let p_start := window_start (mSamplingWindowP cfg) length in
  let d_start := window_start (mSamplingWindowD cfg) length in
  let dt := ns_to_100us (targetNs (mDescriptor s)) in
  let acc := pid_accumulate cfg (mDescriptor s) actualDurations in
  let err_sum := acc_err_sum acc in
  let derivative_sum := acc_derivative_sum acc in
  modify (with_descriptor
            (set_pid_errors (acc_integral_error acc) (acc_previous_error acc)));;
  pOut ← defined (Double.to_int64
            (Double.div
               (Double.mul (if 0 <? err_sum then mPidPo cfg else mPidPu cfg)
                  (Double.of_int err_sum))
               (Double.of_int (length - p_start))));
  iOut ← defined (Double.to_int64
            (Double.mul (mPidI cfg) (Double.of_int (acc_integral_error acc))));
  dOut ← defined (Double.to_int64
            (Double.div
               (Double.div
                  (Double.mul
                     (if 0 <? derivative_sum then mPidDo cfg else mPidDu cfg)
                     (Double.of_int derivative_sum))
                  (Double.of_int dt))
               (Double.of_int (length - d_start))));
  let output := Int.to_int64 (Int.to_int64 (pOut + iOut) + dOut) in
  t_err ← defined (Int.div64 err_sum (length - p_start));
  emit (ATRACE_INT trace_pid_err (Int.to_int32 t_err));;
  emit (ATRACE_INT trace_pid_integral
          (Int.to_int32 (acc_integral_error acc)));;
  t_q ← defined (Int.div64 derivative_sum dt);
  t_der ← defined (Int.div64 t_q (length - d_start));
  emit (ATRACE_INT trace_pid_derivative (Int.to_int32 t_der));;
  emit (ATRACE_INT trace_pid_pOut (Int.to_int32 pOut));;
  emit (ATRACE_INT trace_pid_iOut (Int.to_int32 iOut));;
  emit (ATRACE_INT trace_pid_dOut (Int.to_int32 dOut));;
  emit (ATRACE_INT trace_pid_output (Int.to_int32 output));;
  mret output.

(** ** Public methods *)

Definition session_is_dead : Event := ALOGE "Error: session is dead".
Definition not_yet_targeted : Event :=
  ALOGE "Expect to call updateTargetWorkDuration() first.".

Definition pause (env : Env) : M ScopedAStatus :=
  s ← get;
  if mSessionClosed s then emit session_is_dead;; mret EX_ILLEGAL_STATE
  else if negb (is_active (mDescriptor s)) then mret EX_ILLEGAL_STATE
  else
    modify (with_descriptor (set_is_active false));;
    emit (PSManager (mgr_pause (mSessionId s)));;
    emit (ATRACE_INT trace_active 0);;
    emit (ATRACE_INT trace_min 0);;
    mret ok.

Definition resume (env : Env) : M ScopedAStatus :=
  s ← get;
  if mSessionClosed s then emit session_is_dead;; mret EX_ILLEGAL_STATE
  else if is_active (mDescriptor s) then mret EX_ILLEGAL_STATE
  else
    modify (with_descriptor (set_is_active true));;
    emit (PSManager (mgr_resume (mSessionId s)));;
    emit (ATRACE_INT trace_active 1);;
    emit (ATRACE_INT trace_min (pidSetPoint (mDescriptor s)));;
    mret ok.

(** [close]: the compare-exchange on [mSessionClosed] succeeds exactly when
    the flag is still [false]. *)
Definition close (env : Env) : M ScopedAStatus :=
  s ← get;
  if mSessionClosed s then mret EX_ILLEGAL_STATE
  else
    modify (set_mSessionClosed true);;
    emit (PSManager (removePowerSession (mSessionId s)));;
    modify (with_descriptor (set_is_active false));;
    emit (ATRACE_INT trace_min 0);;
    mret ok.

Definition updateTargetWorkDuration (env : Env) (targetDurationNanos : Z)
    : M ScopedAStatus :=
  s ← get;
  if mSessionClosed s then emit session_is_dead;; mret EX_ILLEGAL_STATE
  else if targetDurationNanos <=? 0 then
    emit (ALOGE "Error: targetDurationNanos should bigger than 0");;
    mret EX_ILLEGAL_ARGUMENT
  else
    scaled ← defined (Double.to_int64
                (Double.mul (Double.of_int targetDurationNanos)
                   (mTargetTimeFactor (profile env))));
    modify (with_descriptor (set_targetNs scaled));;
    emit (PSManager (mgr_updateTargetWorkDuration (mSessionId s)
                       ADPF_VOTE_DEFAULT scaled));;
    emit (ATRACE_INT trace_target (Int.to_int32 scaled));;
    mret ok.

Definition reportActualWorkDuration (env : Env)
    (actualDurations : list WorkDuration) : M ScopedAStatus :=
  s ← get;
  if mSessionClosed s then emit session_is_dead;; mret EX_ILLEGAL_STATE
  else if targetNs (mDescriptor s) =? 0 then
    emit not_yet_targeted;; mret EX_ILLEGAL_STATE
  else if bool_decide (actualDurations = []) then
    emit (ALOGE "Error: durations shouldn't be empty.");;
    mret EX_ILLEGAL_ARGUMENT
  else if negb (is_active (mDescriptor s)) then
    emit (ALOGE "Error: shouldn't report duration during pause state.");;
    mret EX_ILLEGAL_STATE
  else
    let cfg := profile env in
    let count := Int.to_uint64 (update_count (mDescriptor s) + 1) in
    modify (with_descriptor (set_update_count count));;
    isFirstFrame ← isTimeout env;
    let back := default 0 (durationNanos <$> last actualDurations) in
    let target := targetNs (mDescriptor s) in
    emit (ATRACE_INT trace_batch_size
            (Int.to_int32 (Z.of_nat (List.length actualDurations))));;
    emit (ATRACE_INT trace_actl_last (Int.to_int32 back));;
    emit (ATRACE_INT trace_target (Int.to_int32 target));;
    emit (ATRACE_INT trace_hint_count (Int.to_int32 count));;
    emit (ATRACE_INT trace_hint_overtime
            (bool_to_Z (0 <? Int.to_int64 (back - target))));;
    emit (ATRACE_INT trace_is_first_frame (bool_to_Z isFirstFrame));;
    modify (set_mLastUpdatedTime (now env));;
    (if (isFirstFrame : bool) then
       isApp ← isAppSession env;
       (if (isApp : bool) then tryToSendPowerHint env "ADPF_FIRST_FRAME"
        else mret tt);;
       emit (PSManager updateUniversalBoostMode)
     else mret tt);;
    emit (PSManager (disableBoosts (mSessionId s)));;
    if negb (mPidOn cfg) then
      updatePidSetPoint env (Int.to_int32 (mUclampMinHigh cfg)) true;;
      mret ok
    else
      output ← convertWorkDurationToBoostByPid env actualDurations;
      s1 ← get;
      let next_min :=
        Z.min (Int.to_int32 (mUclampMinHigh cfg))
          (Int.to_int32 (pidSetPoint (mDescriptor s1) + Int.to_int32 output)) in
      let next_min := Z.max (Int.to_int32 (mUclampMinLow cfg)) next_min in
      updatePidSetPoint env next_min true;;
      mret ok.

Definition sendHint (env : Env) (hint : SessionHint) : M ScopedAStatus :=
  s ← get;
  if mSessionClosed s then emit session_is_dead;; mret EX_ILLEGAL_STATE
  else if targetNs (mDescriptor s) =? 0 then
    emit not_yet_targeted;; mret EX_ILLEGAL_STATE
  else
    let cfg := profile env in
    let d := mDescriptor s in
    let finish : M ScopedAStatus :=
      tryToSendPowerHint env (SessionHint_toString hint);;
      modify (set_mLastUpdatedTime (now env));;
      modify (set_mLastHintSent (Int.to_int32 (SessionHint_value hint)));;
      emit (ATRACE_INT trace_session_hint
              (Int.to_int32 (SessionHint_value hint)));;
      mret ok in
    match hint with
    | CPU_LOAD_UP =>
        updatePidSetPoint env (pidSetPoint d) true;;
        emit (PSManager (voteSet (mSessionId s) ADPF_CPU_LOAD_UP
                           (mUclampMinHigh cfg) (kUclampMax env) (now env)
                           (Int.to_int64 (targetNs d * 2))));;
        finish
    | CPU_LOAD_DOWN =>
        updatePidSetPoint env (Int.to_int32 (mUclampMinLow cfg)) true;;
        finish
    | CPU_LOAD_RESET =>
        updatePidSetPoint env
          (Int.to_int32
             (Z.max (mUclampMinInit cfg) (Int.to_uint32 (pidSetPoint d))))
          false;;
        valid ← defined (half_stale_duration cfg (targetNs d));
        emit (PSManager (voteSet (mSessionId s) ADPF_CPU_LOAD_RESET
                           (mUclampMinHigh cfg) (kUclampMax env) (now env)
                           valid));;
        finish
    | CPU_LOAD_RESUME =>
        valid ← defined (half_stale_duration cfg (targetNs d));
        emit (PSManager (voteSet (mSessionId s) ADPF_CPU_LOAD_RESUME
                           (pidSetPoint d) (kUclampMax env) (now env) valid));;
        finish
    | SessionHint_other _ =>
        emit (ALOGE "Error: hint is invalid");;
        mret EX_ILLEGAL_ARGUMENT
    end.

Definition setMode (env : Env) (mode : SessionMode) (enabled : bool)
    : M ScopedAStatus :=
  s ← get;
  if mSessionClosed s then emit session_is_dead;; mret EX_ILLEGAL_STATE
  else
    match mode with
    | POWER_EFFICIENCY =>
        let index := SessionMode_index mode in
        modify (set_mModes (<[index := enabled]> (mModes s)));;
        emit (ATRACE_INT (trace_mode index) (bool_to_Z enabled));;
        modify (set_mLastUpdatedTime (now env));;
        mret ok
    | SessionMode_other _ =>
        emit (ALOGE "Error: mode is invalid");;
        mret EX_ILLEGAL_ARGUMENT
    end.

Definition setThreads (env : Env) (threadIds : list Z) : M ScopedAStatus :=
  s ← get;
  if mSessionClosed s then emit session_is_dead;; mret EX_ILLEGAL_STATE
  else if bool_decide (threadIds = []) then
    emit (ALOGE "Error: threadIds should not be empty");;
    mret EX_ILLEGAL_ARGUMENT
  else
    emit (PSManager (setThreadsFromPowerSession (mSessionId s) threadIds));;
    updatePidSetPoint env (Int.to_int32 (mUclampMinInit (profile env))) true;;
    mret ok.

(** ** Construction

    The constructor takes its identifier from the global counter
    [sSessionIDCounter]; [sid] is the value it draws. *)

Definition SessionMode_enum_size : nat := 1.

Definition fresh_session (sid tgid uid durationNs : Z) : PowerHintSession :=
  mkPowerHintSession sid
    (mkAppHintDesc sid tgid uid durationNs 0 true 0 0 0)
    0 false ∅ (-1) (replicate SessionMode_enum_size false).

Definition construct (env : Env) (threadIds : list Z) : M unit :=
  s ← get;
  let cfg := profile env in
  let d := mDescriptor s in
  emit (ATRACE_INT trace_target (Int.to_int32 (targetNs d)));;
  emit (ATRACE_INT trace_active (bool_to_Z (is_active d)));;
  modify (set_mLastUpdatedTime (now env));;
  emit (PSManager (addPowerSession (mSessionId s) threadIds));;
  valid ← defined (half_stale_duration cfg (targetNs d));
  emit (PSManager (voteSet (mSessionId s) ADPF_CPU_LOAD_RESET
                     (mUclampMinHigh cfg) (kUclampMax env) (now env) valid));;
  emit (PSManager (voteSet (mSessionId s) ADPF_VOTE_DEFAULT
                     (mUclampMinInit cfg) (kUclampMax env) (now env)
                     (targetNs d))).

Definition newPowerHintSession (env : Env) (sid tgid uid : Z)
    (threadIds : list Z) (durationNs : Z)
    : option (PowerHintSession * list Event) :=
  match construct env threadIds (fresh_session sid tgid uid durationNs) with
  | Some (_, s, ev) => Some (s, ev)
  | None => None
  end.

(** ** The remote interface as one dispatcher *)

Inductive Call : Type :=
| call_close
| call_pause
| call_resume
| call_updateTargetWorkDuration (targetDurationNanos : Z)
| call_reportActualWorkDuration (actualDurations : list WorkDuration)
| call_sendHint (hint : SessionHint)
| call_setMode (mode : SessionMode) (enabled : bool)
| call_setThreads (threadIds : list Z).

Definition invoke (env : Env) (c : Call) : M ScopedAStatus :=
  match c with
  | call_close => close env
  | call_pause => pause env
  | call_resume => resume env
  | call_updateTargetWorkDuration d => updateTargetWorkDuration env d
  | call_reportActualWorkDuration ds => reportActualWorkDuration env ds
  | call_sendHint h => sendHint env h
  | call_setMode m b => setMode env m b
  | call_setThreads tids => setThreads env tids
  end.

(** Outcome projections. *)
Definition status_of {A} (r : option (A * PowerHintSession * list Event))
    : option A :=
  match r with Some (a, _, _) => Some a | None => None end.

Definition session_of {A} (r : option (A * PowerHintSession * list Event))
    : option PowerHintSession :=
  match r with Some (_, s, _) => Some s | None => None end.

Definition events_of {A} (r : option (A * PowerHintSession * list Event))
    : list Event :=
  match r with Some (_, _, ev) => ev | None => [] end.

(** A sequence of remote calls, each with the surroundings it runs in. *)
Fixpoint run_calls (cs : list (Env * Call)) : M (list ScopedAStatus) :=
  match cs with
  | [] => mret []
  | (env, c) :: rest =>
      st ← invoke env c;
      sts ← run_calls rest;
      mret (st :: sts)
  end.

(** ** Reference definitions from the written contract *)

(** The window start as the contract words it: the whole sequence for a
    window of size 0, the last [W] samples otherwise. *)
Definition spec_window_start (W n : Z) : Z :=
  if W =? 0 then 0 else Z.max 0 (n - W).

(** The set-point clamp of step 6 of the report algorithm. *)
Definition clamp_set_point (cfg : AdpfConfig) (x : Z) : Z :=
  Z.max (mUclampMinLow cfg) (Z.min (mUclampMinHigh cfg) x).

(** A report that stops at the guard on the stored target. *)
Definition fails_not_yet_targeted
    (r : option (ScopedAStatus * PowerHintSession * list Event)) : Prop :=
  status_of r = Some EX_ILLEGAL_STATE /\ In not_yet_targeted (events_of r).

(** The ranges that the C++ types of the profile's fields impose. *)
Definition wf_profile (cfg : AdpfConfig) : Prop :=
  Int.is_uint64 (mSamplingWindowP cfg) /\
  Int.is_uint64 (mSamplingWindowI cfg) /\
  Int.is_uint64 (mSamplingWindowD cfg).

(** A [std::vector] has fewer than [2^63] elements. *)
Definition wf_durations (ds : list WorkDuration) : Prop :=
  Z.of_nat (List.length ds) <= Int.INT64_MAX.

(** The setting of the PID round trip: whole-history windows, unit gains,
    PID control on. *)
Definition unit_gains (cfg : AdpfConfig) : Prop :=
  mPidOn cfg = true /\
  mSamplingWindowP cfg = 0 /\ mSamplingWindowI cfg = 0 /\
  mSamplingWindowD cfg = 0 /\
  mPidPo cfg = Double.one /\ mPidPu cfg = Double.one /\
  mPidI cfg = Double.one /\
  mPidDo cfg = Double.one /\ mPidDu cfg = Double.one.

(** The integral accumulator of a session lies within the bounds [lo] and
    [hi]. *)
Definition integral_within (lo hi : Z) (s : PowerHintSession) : Prop :=
  lo <= integral_error (mDescriptor s) <= hi.

(** A call made under a profile with the integral bounds [lo] and [hi],
    with arguments in the range of their C++ types. *)
Definition call_within (lo hi : Z) (ec : Env * Call) : Prop :=
  wf_profile (profile (fst ec)) /\
  getPidILowDivI (profile (fst ec)) = lo /\
  getPidIHighDivI (profile (fst ec)) = hi /\
  match snd ec with
  | call_reportActualWorkDuration ds => wf_durations ds
  | _ => True
  end.

(** ** Sample surroundings and sessions *)

(** A profile in the shape of the shipped ones, with unit gains and
    whole-history windows. *)
Definition unit_gain_profile : AdpfConfig :=
  mkAdpfConfig true Double.one Double.one Double.one Double.one Double.one
    512 (-120) 0 0 0 162 480 2 (Double.of_int 20) Double.one.

Definition sample_env : Env :=
  mkEnv unit_gain_profile 1000 (fun _ => true) 1024 10000.

(** The same surroundings with a target-time factor of one half. *)
Definition half_factor_profile : AdpfConfig :=
  mkAdpfConfig true Double.one Double.one Double.one Double.one Double.one
    512 (-120) 0 0 0 162 480 2 (Double.of_int 20) Double.half.

Definition half_factor_env : Env :=
  mkEnv half_factor_profile 1000 (fun _ => true) 1024 10000.

(** A session opened for a 60 Hz frame, as the constructor leaves it. *)
Definition sample_session : PowerHintSession :=
  set_mLastUpdatedTime 1000 (fresh_session 1 100 10001 16666666).

(** The sample session after [close]. *)
Definition closed_session : PowerHintSession :=
  with_descriptor (set_is_active false) (set_mSessionClosed true sample_session).

(** The sample session with a stored target of one nanosecond. *)
Definition short_target_session : PowerHintSession :=
  with_descriptor (set_targetNs 1) sample_session.

(** A profile with a proportional window of five samples, a whole-history
    integral window and a derivative window of one sample. *)
Definition windowed_profile : AdpfConfig :=
  mkAdpfConfig true Double.one Double.two Double.half Double.one Double.one
    512 (-120) 5 0 1 162 480 2 (Double.of_int 20) Double.one.

Definition windowed_env : Env :=
  mkEnv windowed_profile 1000 (fun _ => true) 1024 10000.

(** Three frames that ran long. *)
Definition late_frames : list WorkDuration :=
  [mkWorkDuration 10 26666666; mkWorkDuration 20 29666666;
   mkWorkDuration 30 21666666].

(** The sample session once its set point has been voted at the init
    bound. *)
Definition settled_session : PowerHintSession :=
  with_descriptor (set_pidSetPoint 162) sample_session.

(** ** Partial-correctness reasoning in [M] *)

Definition wp {A} (m : M A)
    (Q : A -> PowerHintSession -> list Event -> Prop)
    (s : PowerHintSession) : Prop :=
  match m s with
  | Some (a, s', ev) => Q a s' ev
  | None => True
  end.

(** [returns m P]: whatever [m] returns satisfies [P]. *)
Definition returns {A} (m : M A) (P : A -> Prop) : Prop :=
  forall s a s' ev, m s = Some (a, s', ev) -> P a.

(** ** Total-correctness reasoning in [M] *)

Definition wpt {A} (m : M A)
    (Q : A -> PowerHintSession -> list Event -> Prop)
    (s : PowerHintSession) : Prop :=
  match m s with
  | Some (a, s', ev) => Q a s' ev
  | None => False
  end.

(** ** Destruction

    The destructor closes the session, whatever [close] answers, and
    zeroes three trace counters. *)
Definition PowerHintSession_destructor (env : Env) : M unit :=
  close env;;
  emit (ATRACE_INT trace_target 0);;
  emit (ATRACE_INT trace_actl_last 0);;
  emit (ATRACE_INT trace_active 0).

(** ** Views of an event trace *)

(** The calls that reach the session manager, in order. *)
Definition manager_calls (ev : list Event) : list ManagerCall :=
  omap (fun e => match e with PSManager c => Some c | _ => None end) ev.

(** The platform hints that were fired, in order. *)
Definition hints_done (ev : list Event) : list string :=
  omap (fun e => match e with DoHint h => Some h | _ => None end) ev.

Definition is_removal (c : ManagerCall) : bool :=
  match c with removePowerSession _ => true | _ => false end.

(** How many times the session was removed from the manager. *)
Definition removals (ev : list Event) : nat :=
  List.length (List.filter is_removal (manager_calls ev)).

(** The error of one sample against the target, in units of 100
    microseconds, as the PID loop forms it. *)
Definition sample_error (target : Z) (a : WorkDuration) : Z :=
  ns_to_100us (Int.to_int64 (durationNanos a - target)).

(** The calls that refresh the staleness timestamp when they succeed. *)
Definition refreshes_timestamp (c : Call) : bool :=
  match c with
  | call_reportActualWorkDuration _ | call_sendHint _ | call_setMode _ _ => true
  | _ => false
  end.

(** The calls that may write the set point. *)
Definition writes_set_point (c : Call) : bool :=
  match c with
  | call_reportActualWorkDuration _ | call_sendHint _ | call_setThreads _ => true
  | _ => false
  end.

(** A closed session is inactive. *)
Definition closed_is_inactive (s : PowerHintSession) : Prop :=
  mSessionClosed s = true -> is_active (mDescriptor s) = false.

(** What holds of a session through its whole life: closed implies
    inactive, the controller and its descriptor agree on the session id,
    the mode array keeps its size, and the last hint sent is none (-1) or
    one of the four known hints. *)
Definition session_invariant (s : PowerHintSession) : Prop :=
  closed_is_inactive s /\
  mSessionId s = sessionId (mDescriptor s) /\
  List.length (mModes s) = SessionMode_enum_size /\
  -1 <= mLastHintSent s <= 3.

(** The sum of the errors of a run of samples. *)
Definition sum_errors (target : Z) (l : list WorkDuration) : Z :=
  foldr (fun a acc => sample_error target a + acc) 0 l.

(** ** Further sample runs *)

(** What the constructor of the sample session emits. *)
Definition sample_construction : list Event :=
  [ATRACE_INT trace_target 16666666; ATRACE_INT trace_active 1;
   PSManager (addPowerSession 1 [5]);
   PSManager (voteSet 1 ADPF_CPU_LOAD_RESET 480 1024 1000 166666660);
   PSManager (voteSet 1 ADPF_VOTE_DEFAULT 162 1024 1000 16666666)].

(** A short life: pause, close, and a resume that comes too late. *)
Definition short_life : list (Env * Call) :=
  [(sample_env, call_pause); (sample_env, call_close);
   (sample_env, call_resume)].

(** The sample profile with PID control switched off. *)
Definition pid_off_profile : AdpfConfig :=
  mkAdpfConfig false Double.one Double.one Double.one Double.one Double.one
    512 (-120) 0 0 0 162 480 2 (Double.of_int 20) Double.one.

Definition pid_off_env : Env :=
  mkEnv pid_off_profile 1000 (fun _ => true) 1024 10000.

(** The sample surroundings two seconds later, when the sample session has
    gone stale. *)
Definition later_env : Env :=
  mkEnv windowed_profile 2000001000 (fun _ => true) 1024 10000.

(** * Properties *)

(** ** Fixed-width integers *)

Lemma to_int64_id (z : Z) : Int.is_int64 z -> Int.to_int64 z = z.
Proof.
  unfold Int.is_int64, Int.INT64_MIN, Int.INT64_MAX, Int.to_int64, Int.to_signed.
  intros H. change (2 ^ (64 - 1)) with 9223372036854775808.
  change (2 ^ 64) with 18446744073709551616.
  change (2 ^ 63) with 9223372036854775808 in H.
  rewrite Z.mod_small; lia.
Qed.

Lemma to_int32_id (z : Z) : - 2 ^ 31 <= z <= Int.INT_MAX -> Int.to_int32 z = z.
Proof.
  unfold Int.INT_MAX, Int.to_int32, Int.to_signed.
  intros H. change (2 ^ (32 - 1)) with 2147483648.
  change (2 ^ 32) with 4294967296.
  change (2 ^ 31) with 2147483648 in H.
  rewrite Z.mod_small; lia.
Qed.

Lemma to_uint64_id (z : Z) : Int.is_uint64 z -> Int.to_uint64 z = z.
Proof.
  unfold Int.is_uint64, Int.UINT64_MAX, Int.to_uint64, Int.to_unsigned.
  intros H. apply Z.mod_small. lia.
Qed.

(** ** Rules of the method monad *)

Lemma bind_unfold {A B} (m : M A) (f : A -> M B) (s : PowerHintSession) :
  (m ≫= f) s =
  match m s with
  | None => None
  | Some (a, s1, ev1) =>
      match f a s1 with
      | None => None
      | Some (b, s2, ev2) => Some (b, s2, ev1 ++ ev2)
      end
  end.
Proof. reflexivity. Qed.

Lemma wp_bind {A B} (m : M A) (f : A -> M B) Q s :
  wp m (fun a s1 ev1 => wp (f a) (fun b s2 ev2 => Q b s2 (ev1 ++ ev2)) s1) s ->
  wp (m ≫= f) Q s.
Proof.
  unfold wp. rewrite bind_unfold.
  destruct (m s) as [[[a s1] ev1]|]; [|done].
  destruct (f a s1) as [[[b s2] ev2]|]; done.
Qed.

Lemma wp_ret {A} (a : A) (Q : A -> PowerHintSession -> list Event -> Prop) s :
  Q a s [] -> wp (mret a) Q s.
Proof. done. Qed.

Lemma wp_get (Q : PowerHintSession -> PowerHintSession -> list Event -> Prop) s :
  Q s s [] -> wp get Q s.
Proof. done. Qed.

Lemma wp_modify f (Q : unit -> PowerHintSession -> list Event -> Prop) s :
  Q tt (f s) [] -> wp (modify f) Q s.
Proof. done. Qed.

Lemma wp_emit e (Q : unit -> PowerHintSession -> list Event -> Prop) s :
  Q tt s [e] -> wp (emit e) Q s.
Proof. done. Qed.

Lemma wp_defined {A} (o : option A)
    (Q : A -> PowerHintSession -> list Event -> Prop) s :
  (forall a, o = Some a -> Q a s []) -> wp (defined o) Q s.
Proof. unfold wp, defined. destruct o; auto. Qed.

Lemma wp_mono {A} (m : M A) (Q Q' : A -> PowerHintSession -> list Event -> Prop) s :
  (forall a s' ev, Q a s' ev -> Q' a s' ev) -> wp m Q s -> wp m Q' s.
Proof. unfold wp. destruct (m s) as [[[a s1] ev1]|]; auto. Qed.

Lemma wp_elim {A} (m : M A) Q s a s' ev :
  wp m Q s -> m s = Some (a, s', ev) -> Q a s' ev.
Proof. unfold wp. intros H E. rewrite E in H. exact H. Qed.

Lemma wp_false_none {A} (m : M A) (s : PowerHintSession) :
  wp m (fun _ _ _ => False) s -> m s = None.
Proof.
  unfold wp. destruct (m s) as [[[a s'] ev]|]; [contradiction | reflexivity].
Qed.

Ltac wp_step :=
  lazymatch goal with
  | |- wp (mbind _ _) _ _ => apply wp_bind
  | |- wp (mret _) _ _ => apply wp_ret
  | |- wp get _ _ => apply wp_get
  | |- wp (modify _) _ _ => apply wp_modify
  | |- wp (emit _) _ _ => apply wp_emit
  | |- wp (defined _) _ _ => apply wp_defined; intros ? ?
  | |- wp (if ?b then _ else _) _ _ => destruct b eqn:?
  | |- wp (match ?x with _ => _ end) _ _ => destruct x eqn:?
  end.

Ltac wp_go :=
  repeat
    (lazy beta zeta;
     first
       [ wp_step
       | progress unfold isTimeout, isAppSession, tryToSendPowerHint,
           updatePidSetPoint, convertWorkDurationToBoostByPid ]).

Lemma returns_bind {A B} (m : M A) (f : A -> M B) (P : B -> Prop) :
  (forall a, returns (f a) P) -> returns (m ≫= f) P.
Proof.
  intros Hf s b s2 ev. rewrite bind_unfold.
  destruct (m s) as [[[a s1] ev1]|]; [|done].
  destruct (f a s1) as [[[b' s2'] ev2]|] eqn:E; [|done].
  intros [= -> _ _]. exact (Hf a s1 b s2' ev2 E).
Qed.

Lemma returns_ret {A} (a : A) (P : A -> Prop) : P a -> returns (mret a) P.
Proof. intros Ha s a' s' ev [= <- _ _]. exact Ha. Qed.

Lemma returns_elim {A} (m : M A) (P : A -> Prop) s a s' ev :
  returns m P -> m s = Some (a, s', ev) -> P a.
Proof. intros H E. exact (H s a s' ev E). Qed.

Ltac solve_returns :=
  repeat first
    [ apply returns_ret; reflexivity
    | apply returns_bind; intros ?
    | match goal with
      | |- returns (if ?b then _ else _) _ => destruct b
      | |- returns (match ?x with _ => _ end) _ => destruct x
      end ].

Lemma wpt_bind {A B} (m : M A) (f : A -> M B) Q s :
  wpt m (fun a s1 ev1 => wpt (f a) (fun b s2 ev2 => Q b s2 (ev1 ++ ev2)) s1) s ->
  wpt (m ≫= f) Q s.
Proof.
  unfold wpt. rewrite bind_unfold.
  destruct (m s) as [[[a s1] ev1]|]; [|done].
  destruct (f a s1) as [[[b s2] ev2]|]; done.
Qed.

Lemma wpt_ret {A} (a : A) (Q : A -> PowerHintSession -> list Event -> Prop) s :
  Q a s [] -> wpt (mret a) Q s.
Proof. done. Qed.

Lemma wpt_get (Q : PowerHintSession -> PowerHintSession -> list Event -> Prop) s :
  Q s s [] -> wpt get Q s.
Proof. done. Qed.

Lemma wpt_modify f (Q : unit -> PowerHintSession -> list Event -> Prop) s :
  Q tt (f s) [] -> wpt (modify f) Q s.
Proof. done. Qed.

Lemma wpt_emit e (Q : unit -> PowerHintSession -> list Event -> Prop) s :
  Q tt s [e] -> wpt (emit e) Q s.
Proof. done. Qed.

Lemma wpt_defined {A} (a : A) (o : option A)
    (Q : A -> PowerHintSession -> list Event -> Prop) s :
  o = Some a -> Q a s [] -> wpt (defined o) Q s.
Proof. intros ->. done. Qed.

Lemma wpt_equation {A} (m : M A) Q s a s' ev :
  m s = Some (a, s', ev) -> Q a s' ev -> wpt m Q s.
Proof. unfold wpt. intros ->. done. Qed.

Lemma wpt_elim {A} (m : M A) Q s :
  wpt m Q s -> exists a s' ev, m s = Some (a, s', ev) /\ Q a s' ev.
Proof.
  unfold wpt. destruct (m s) as [[[a s'] ev]|]; [eauto | contradiction].
Qed.

Ltac session_simpl :=
  cbn [mSessionId mDescriptor mLastUpdatedTime mSessionClosed mSupportedHints
       mLastHintSent mModes sessionId tgid uid targetNs pidSetPoint is_active
       update_count integral_error previous_error
       with_descriptor set_targetNs set_pidSetPoint set_is_active
       set_update_count set_pid_errors set_mLastUpdatedTime set_mSessionClosed
       set_mSupportedHints set_mLastHintSent set_mModes].

Ltac wpt_step :=
  lazymatch goal with
  | |- wpt (mbind _ _) _ _ => apply wpt_bind
  | |- wpt (mret _) _ _ => apply wpt_ret
  | |- wpt get _ _ => apply wpt_get
  | |- wpt (modify _) _ _ => apply wpt_modify
  | |- wpt (emit _) _ _ => apply wpt_emit
  | |- wpt (defined _) _ _ =>
      eapply wpt_defined; [session_simpl; eassumption|]
  | |- wpt (if ?b then _ else _) _ _ => destruct b eqn:?
  | |- wpt (match ?x with _ => _ end) _ _ => destruct x eqn:?
  end.

Ltac wpt_go :=
  repeat
    (lazy beta zeta;
     first
       [ wpt_step
       | progress unfold isTimeout, isAppSession, tryToSendPowerHint,
           updatePidSetPoint ]).

(** ** The sample sessions are reachable *)

Lemma sample_session_constructed :
  fst <$> newPowerHintSession sample_env 1 100 10001 [5] 16666666
  = Some sample_session.
Proof. vm_compute. reflexivity. Qed.

Lemma closed_session_reached :
  session_of (close sample_env sample_session) = Some closed_session.
Proof. reflexivity. Qed.

Lemma settled_session_reached :
  session_of (setThreads sample_env [5; 6] sample_session)
  = Some settled_session.
Proof. vm_compute. reflexivity. Qed.

(** ** The guard on the closed flag *)

Lemma closed_rejects (env : Env) (c : Call) (s : PowerHintSession) :
  mSessionClosed s = true ->
  exists ev, invoke env c s = Some (EX_ILLEGAL_STATE, s, ev).
Proof.
  intros Hc.
  destruct c; cbn [invoke];
    unfold close, pause, resume, updateTargetWorkDuration,
      reportActualWorkDuration, sendHint, setMode, setThreads;
    rewrite bind_unfold; cbn [get]; rewrite Hc; cbn; eauto.
Qed.

Lemma closed_rejects_all (cs : list (Env * Call)) (s : PowerHintSession) :
  mSessionClosed s = true ->
  exists ev,
    run_calls cs s =
    Some (replicate (List.length cs) EX_ILLEGAL_STATE, s, ev).
Proof.
  intros Hc. induction cs as [|[env c] cs [ev IH]]; cbn [run_calls].
  - exists []. reflexivity.
  - destruct (closed_rejects env c s Hc) as [ev1 E1].
    exists (ev1 ++ ev ++ []).
    rewrite bind_unfold, E1, bind_unfold, IH. reflexivity.
Qed.

(** C5. [close] on an open session succeeds and closes it; from then on
    every call of the remote interface, a further [close] included, fails
    with IllegalState and leaves the session as it is, for any sequence of
    calls and whatever surroundings they run in. *)
Theorem close_once_then_dead (env : Env) (s : PowerHintSession) :
  mSessionClosed s = false ->
  exists s1 ev1,
    close env s = Some (ok, s1, ev1) /\
    mSessionClosed s1 = true /\
    (forall env' c,
        exists ev, invoke env' c s1 = Some (EX_ILLEGAL_STATE, s1, ev)) /\
    (forall cs,
        exists ev,
          run_calls cs s1 =
          Some (replicate (List.length cs) EX_ILLEGAL_STATE, s1, ev)).
Proof.
  intros Ho.
  exists (with_descriptor (set_is_active false) (set_mSessionClosed true s)).
  eexists. split; [|split; [reflexivity|split]].
  - unfold close. rewrite bind_unfold. cbn [get]. rewrite Ho. reflexivity.
  - intros env' c. now apply closed_rejects.
  - intros cs. now apply closed_rejects_all.
Qed.

Lemma close_once_then_dead_witness :
  mSessionClosed sample_session = false /\
  exists s1 ev1,
    close sample_env sample_session = Some (ok, s1, ev1) /\
    mSessionClosed s1 = true /\
    (forall env' c,
        exists ev, invoke env' c s1 = Some (EX_ILLEGAL_STATE, s1, ev)) /\
    (forall cs,
        exists ev,
          run_calls cs s1 =
          Some (replicate (List.length cs) EX_ILLEGAL_STATE, s1, ev)).
Proof.
  split; [reflexivity|].
  apply (close_once_then_dead sample_env sample_session). reflexivity.
Defined.

(** ** Pause and resume *)

Lemma pause_active (env : Env) (s : PowerHintSession) :
  mSessionClosed s = false -> is_active (mDescriptor s) = true ->
  pause env s =
  Some (ok, with_descriptor (set_is_active false) s,
        [PSManager (mgr_pause (mSessionId s)); ATRACE_INT trace_active 0;
         ATRACE_INT trace_min 0]).
Proof.
  intros Ho Ha. unfold pause. rewrite bind_unfold. cbn [get].
  rewrite Ho, Ha. reflexivity.
Qed.

Lemma pause_paused (env : Env) (s : PowerHintSession) :
  mSessionClosed s = false -> is_active (mDescriptor s) = false ->
  pause env s = Some (EX_ILLEGAL_STATE, s, []).
Proof.
  intros Ho Ha. unfold pause. rewrite bind_unfold. cbn [get].
  rewrite Ho, Ha. reflexivity.
Qed.

Lemma resume_paused (env : Env) (s : PowerHintSession) :
  mSessionClosed s = false -> is_active (mDescriptor s) = false ->
  resume env s =
  Some (ok, with_descriptor (set_is_active true) s,
        [PSManager (mgr_resume (mSessionId s)); ATRACE_INT trace_active 1;
         ATRACE_INT trace_min (pidSetPoint (mDescriptor s))]).
Proof.
  intros Ho Ha. unfold resume. rewrite bind_unfold. cbn [get].
  rewrite Ho, Ha. reflexivity.
Qed.

Lemma resume_active (env : Env) (s : PowerHintSession) :
  mSessionClosed s = false -> is_active (mDescriptor s) = true ->
  resume env s = Some (EX_ILLEGAL_STATE, s, []).
Proof.
  intros Ho Ha. unfold resume. rewrite bind_unfold. cbn [get].
  rewrite Ho, Ha. reflexivity.
Qed.

Lemma run_calls_cons (env : Env) (c : Call) (cs : list (Env * Call))
    (s s1 s2 : PowerHintSession) st sts ev1 ev2 :
  invoke env c s = Some (st, s1, ev1) ->
  run_calls cs s1 = Some (sts, s2, ev2) ->
  run_calls ((env, c) :: cs) s = Some (st :: sts, s2, ev1 ++ ev2 ++ []).
Proof.
  intros E1 E2. cbn [run_calls]. rewrite bind_unfold, E1, bind_unfold, E2.
  reflexivity.
Qed.

(** C6. On a session that is not closed, [pause] succeeds exactly when the
    session is active and [resume] exactly when it is paused, the other
    case failing with IllegalState; so from the active state pause, resume,
    pause succeed in turn, a second pause in a row fails, and a second
    resume in a row fails. *)
Theorem pause_resume_alternate (env : Env) (s : PowerHintSession) :
  mSessionClosed s = false ->
  (status_of (pause env s) =
     Some (if is_active (mDescriptor s) then ok else EX_ILLEGAL_STATE)) /\
  (status_of (resume env s) =
     Some (if is_active (mDescriptor s) then EX_ILLEGAL_STATE else ok)) /\
  (is_active (mDescriptor s) = true ->
     status_of (run_calls [(env, call_pause); (env, call_resume);
                           (env, call_pause)] s)
     = Some [ok; ok; ok]) /\
  (is_active (mDescriptor s) = true ->
     status_of (run_calls [(env, call_pause); (env, call_pause)] s)
     = Some [ok; EX_ILLEGAL_STATE]) /\
  (exists st,
     status_of (run_calls [(env, call_resume); (env, call_resume)] s)
     = Some [st; EX_ILLEGAL_STATE]).
Proof.
  intros Ho.
  destruct (is_active (mDescriptor s)) eqn:Ha.
  - rewrite (pause_active env s Ho Ha), (resume_active env s Ho Ha).
    repeat split.
    + intros _.
      erewrite run_calls_cons;
        [reflexivity | cbn [invoke]; apply pause_active; assumption |].
      erewrite run_calls_cons;
        [reflexivity | cbn [invoke]; apply resume_paused; reflexivity + assumption |].
      erewrite run_calls_cons;
        [reflexivity | cbn [invoke]; apply pause_active; reflexivity + assumption
        | reflexivity].
    + intros _.
      erewrite run_calls_cons;
        [reflexivity | cbn [invoke]; apply pause_active; assumption |].
      erewrite run_calls_cons;
        [reflexivity | cbn [invoke]; apply pause_paused; reflexivity + assumption
        | reflexivity].
    + exists EX_ILLEGAL_STATE.
      erewrite run_calls_cons;
        [reflexivity | cbn [invoke]; apply resume_active; assumption |].
      erewrite run_calls_cons;
        [reflexivity | cbn [invoke]; apply resume_active; assumption
        | reflexivity].
  - rewrite (pause_paused env s Ho Ha), (resume_paused env s Ho Ha).
    repeat split; try discriminate.
    exists ok.
    erewrite run_calls_cons;
      [reflexivity | cbn [invoke]; apply resume_paused; assumption |].
    erewrite run_calls_cons;
      [reflexivity | cbn [invoke]; apply resume_active; reflexivity + assumption
      | reflexivity].
Qed.

Lemma pause_resume_alternate_witness :
  status_of (run_calls [(sample_env, call_pause); (sample_env, call_resume);
                        (sample_env, call_pause)] sample_session)
  = Some [ok; ok; ok].
Proof.
  apply (pause_resume_alternate sample_env sample_session);
    reflexivity.
Defined.

(** ** Reports with no durations *)

(** C1 (as amended). A report with an empty duration list always fails and
    leaves the session as it is: with IllegalState when the session is
    closed or its stored target is zero, with IllegalArgument otherwise,
    paused sessions included. *)
Theorem report_empty_fails (env : Env) (s : PowerHintSession) :
  exists ev,
    reportActualWorkDuration env [] s =
    Some (if mSessionClosed s || (targetNs (mDescriptor s) =? 0)
          then EX_ILLEGAL_STATE else EX_ILLEGAL_ARGUMENT,
          s, ev).
Proof.
  unfold reportActualWorkDuration. rewrite bind_unfold. cbn [get].
  destruct (mSessionClosed s); [cbn; eauto|].
  destruct (targetNs (mDescriptor s) =? 0); cbn; eauto.
Qed.

(** C1, as first stated, fails on a closed session: the guard on the
    closed flag comes first and answers IllegalState. *)
Lemma report_empty_on_closed_session :
  status_of (reportActualWorkDuration sample_env [] closed_session)
    = Some EX_ILLEGAL_STATE /\
  status_of (reportActualWorkDuration sample_env [] closed_session)
    <> Some EX_ILLEGAL_ARGUMENT.
Proof. split; [reflexivity | discriminate]. Qed.

(** ** Failed calls *)

Ltac guard_fails H :=
  cbn in H; injection H as <- <- <-; reflexivity.

Ltac success_path H Hne :=
  exfalso; apply Hne;
  match type of H with
  | match ?m ?s0 with _ => _ end = Some _ =>
      let E := fresh "E" in
      destruct (m s0) as [[[? ?] ?]|] eqn:E; [|discriminate H];
      injection H as <- _ _;
      refine (returns_elim m (fun st => st = ok) s0 _ _ _ _ E)
  end;
  solve [solve_returns].

(** C10. A call that returns an error leaves the whole session record as it
    was: target, set point, update counter, both PID accumulators, active
    flag, mode flags, last-updated time, and the closed flag, hint cache and
    last hint besides. *)
Theorem failed_call_changes_nothing (env : Env) (c : Call)
    (s s' : PowerHintSession) (st : ScopedAStatus) (ev : list Event) :
  invoke env c s = Some (st, s', ev) -> st <> ok -> s' = s.
Proof.
  intros H Hne.
  destruct c; cbn [invoke] in H;
    unfold close, pause, resume, updateTargetWorkDuration,
      reportActualWorkDuration, sendHint, setMode, setThreads in H;
    rewrite bind_unfold in H; cbn [get] in H;
    (destruct (mSessionClosed s); [guard_fails H|]).
  - success_path H Hne.
  - destruct (negb (is_active (mDescriptor s))); [guard_fails H|].
    success_path H Hne.
  - destruct (is_active (mDescriptor s)); [guard_fails H|].
    success_path H Hne.
  - destruct (targetDurationNanos <=? 0); [guard_fails H|].
    success_path H Hne.
  - destruct (targetNs (mDescriptor s) =? 0); [guard_fails H|].
    destruct (bool_decide (actualDurations = [])); [guard_fails H|].
    destruct (negb (is_active (mDescriptor s))); [guard_fails H|].
    success_path H Hne.
  - destruct (targetNs (mDescriptor s) =? 0); [guard_fails H|].
    destruct hint; try (success_path H Hne).
    guard_fails H.
  - destruct mode; [success_path H Hne | guard_fails H].
  - destruct (bool_decide (threadIds = [])); [guard_fails H|].
    success_path H Hne.
Qed.

Lemma failed_call_changes_nothing_witness :
  invoke sample_env (call_setMode (SessionMode_other 7) true) sample_session
  = Some (EX_ILLEGAL_ARGUMENT, sample_session,
          [ALOGE "Error: mode is invalid"]) /\
  sample_session = sample_session.
Proof.
  split; [reflexivity|].
  refine (failed_call_changes_nothing sample_env
            (call_setMode (SessionMode_other 7) true)
            sample_session sample_session EX_ILLEGAL_ARGUMENT
            [ALOGE "Error: mode is invalid"] _ _);
    [reflexivity | discriminate].
Defined.

(** ** Sampling windows *)

Lemma window_start_spec (W n : Z) :
  Int.is_uint64 W -> 0 <= n <= Int.INT64_MAX ->
  window_start W n = spec_window_start W n.
Proof.
  unfold Int.is_uint64, Int.UINT64_MAX, Int.INT64_MAX.
  intros HW Hn. unfold window_start, spec_window_start.
  rewrite (to_uint64_id n)
    by (unfold Int.is_uint64, Int.UINT64_MAX; lia).
  destruct (Z.eqb_spec W 0) as [->|HW0]; [reflexivity|]. cbn [orb].
  destruct (Z.ltb_spec n W) as [Hlt|Hge]; [lia|].
  rewrite (to_uint64_id (n - W))
    by (unfold Int.is_uint64, Int.UINT64_MAX; lia).
  rewrite to_int64_id
    by (unfold Int.is_int64, Int.INT64_MIN, Int.INT64_MAX; lia).
  lia.
Qed.

Lemma window_start_range (W n : Z) :
  Int.is_uint64 W -> 0 < n <= Int.INT64_MAX ->
  0 <= window_start W n <= n - 1.
Proof.
  intros HW Hn. rewrite window_start_spec by (assumption || lia).
  unfold spec_window_start. unfold Int.is_uint64 in HW.
  destruct (Z.eqb_spec W 0); lia.
Qed.

(** C7. For a non-empty sequence of [n] durations, each of the three
    window starts of the PID loop is 0 for a window size of 0 and
    [max 0 (n - W)] for a window size [W] otherwise: the conditional of the
    code computes the function of the contract, and the loop runs with
    these starts. *)
Theorem window_starts_follow_contract (cfg : AdpfConfig) (d : AppHintDesc)
    (ds : list WorkDuration) :
  wf_profile cfg -> wf_durations ds -> ds <> [] ->
  let n := Z.of_nat (List.length ds) in
  let p_start := spec_window_start (mSamplingWindowP cfg) n in
  let i_start := spec_window_start (mSamplingWindowI cfg) n in
  let d_start := spec_window_start (mSamplingWindowD cfg) n in
  window_start (mSamplingWindowP cfg) n = p_start /\
  window_start (mSamplingWindowI cfg) n = i_start /\
  window_start (mSamplingWindowD cfg) n = d_start /\
  pid_accumulate cfg d ds =
    pid_loop cfg (targetNs d) (ns_to_100us (targetNs d))
      p_start i_start d_start
      (Z.min p_start (Z.min i_start d_start))
      (drop (Z.to_nat (Z.min p_start (Z.min i_start d_start))) ds)
      (mkPidAcc 0 0 (integral_error d) (previous_error d)).
Proof.
  intros (HP & HI & HD) Hds Hne n p_start i_start d_start.
  assert (Hn : 0 <= n <= Int.INT64_MAX) by (unfold wf_durations in Hds; lia).
  assert (EP : window_start (mSamplingWindowP cfg) n = p_start)
    by now apply window_start_spec.
  assert (EI : window_start (mSamplingWindowI cfg) n = i_start)
    by now apply window_start_spec.
  assert (ED : window_start (mSamplingWindowD cfg) n = d_start)
    by now apply window_start_spec.
  repeat split; try assumption.
  unfold pid_accumulate. fold n. rewrite EP, EI, ED. reflexivity.
Qed.

Lemma window_starts_follow_contract_witness :
  window_start 5 3 = 0 /\ window_start 0 3 = 0 /\ window_start 1 3 = 2.
Proof.
  destruct (window_starts_follow_contract windowed_profile
              (mDescriptor sample_session) late_frames)
    as (EP & EI & ED & _).
  - repeat split; vm_compute; congruence.
  - vm_compute. congruence.
  - discriminate.
  - split; [exact EP | split; [exact EI | exact ED]].
Defined.

(** ** The integral accumulator *)

Lemma clamp_integral_range (cfg : AdpfConfig) (x : Z) :
  getPidILowDivI cfg <= getPidIHighDivI cfg ->
  getPidILowDivI cfg <= clamp_integral cfg x <= getPidIHighDivI cfg.
Proof. unfold clamp_integral. lia. Qed.

(** One iteration keeps the accumulator in range, and puts it in range
    when the index lies in the integral window. *)
Lemma pid_step_integral (cfg : AdpfConfig) target dt p_start i_start d_start
    i a acc :
  getPidILowDivI cfg <= getPidIHighDivI cfg ->
  i_start <= i \/
  getPidILowDivI cfg <= acc_integral_error acc <= getPidIHighDivI cfg ->
  getPidILowDivI cfg
  <= acc_integral_error
       (pid_step cfg target dt p_start i_start d_start i a acc)
  <= getPidIHighDivI cfg.
Proof.
  intros Hb H. cbn [pid_step acc_integral_error].
  destruct (Z.leb_spec i_start i).
  - now apply clamp_integral_range.
  - destruct H; [lia | assumption].
Qed.

Lemma pid_loop_integral (cfg : AdpfConfig) target dt p_start i_start d_start
    (ds : list WorkDuration) :
  getPidILowDivI cfg <= getPidIHighDivI cfg ->
  forall i acc,
    ds <> [] ->
    i_start <= i + Z.of_nat (List.length ds) - 1 ->
    getPidILowDivI cfg
    <= acc_integral_error
         (pid_loop cfg target dt p_start i_start d_start i ds acc)
    <= getPidIHighDivI cfg.
Proof.
  intros Hb. induction ds as [|a [|b rest] IH]; intros i acc Hne Hi.
  - congruence.
  - cbn [pid_loop]. apply pid_step_integral; [assumption|].
    left. cbn [List.length] in Hi. lia.
  - change (pid_loop cfg target dt p_start i_start d_start i (a :: b :: rest) acc)
      with (pid_loop cfg target dt p_start i_start d_start (i + 1) (b :: rest)
              (pid_step cfg target dt p_start i_start d_start i
                 (durationNanos a) acc)).
    apply IH; [discriminate|].
    cbn [List.length] in Hi |- *. lia.
Qed.

Lemma pid_accumulate_integral (cfg : AdpfConfig) (d : AppHintDesc)
    (ds : list WorkDuration) :
  wf_profile cfg -> wf_durations ds -> ds <> [] ->
  getPidILowDivI cfg <= getPidIHighDivI cfg ->
  getPidILowDivI cfg
  <= acc_integral_error (pid_accumulate cfg d ds)
  <= getPidIHighDivI cfg.
Proof.
  intros (HP & HI & HD) Hds Hne Hb.
  assert (Hn : 0 < Z.of_nat (List.length ds) <= Int.INT64_MAX).
  { unfold wf_durations in Hds. destruct ds; [congruence|].
    cbn [List.length] in *. lia. }
  pose proof (window_start_range _ _ HP Hn) as RP.
  pose proof (window_start_range _ _ HI Hn) as RI.
  pose proof (window_start_range _ _ HD Hn) as RD.
  unfold pid_accumulate.
  set (n := Z.of_nat (List.length ds)) in *.
  set (p := window_start (mSamplingWindowP cfg) n) in *.
  set (i := window_start (mSamplingWindowI cfg) n) in *.
  set (w := window_start (mSamplingWindowD cfg) n) in *.
  set (first := Z.min p (Z.min i w)).
  assert (Hlen : Z.of_nat (List.length (drop (Z.to_nat first) ds)) = n - first).
  { rewrite length_drop. subst n first. lia. }
  apply pid_loop_integral; [assumption| |].
  - intros E. rewrite E in Hlen. cbn in Hlen. subst first. lia.
  - rewrite Hlen. subst first. lia.
Qed.

(** A successful report under PID control leaves the integral accumulator
    within the bounds, whatever it held before: the last sample always lies
    in the integral window and the clamp follows its accumulation. *)
Lemma report_establishes_integral (env : Env) (ds : list WorkDuration)
    (s s' : PowerHintSession) (ev : list Event) :
  wf_profile (profile env) -> wf_durations ds ->
  mPidOn (profile env) = true ->
  getPidILowDivI (profile env) <= getPidIHighDivI (profile env) ->
  reportActualWorkDuration env ds s = Some (ok, s', ev) ->
  getPidILowDivI (profile env)
  <= integral_error (mDescriptor s')
  <= getPidIHighDivI (profile env).
Proof.
  intros Hwf Hds Hon Hb H.
  unfold reportActualWorkDuration in H.
  rewrite bind_unfold in H. cbn [get] in H.
  destruct (mSessionClosed s); [discriminate H|].
  destruct (targetNs (mDescriptor s) =? 0); [discriminate H|].
  destruct (bool_decide_reflect (ds = [])) as [|Hne]; [discriminate H|].
  destruct (negb (is_active (mDescriptor s))); [discriminate H|].
  rewrite Hon in H. cbn [negb] in H.
  match type of H with
  | match ?m ?s0 with _ => _ end = Some _ =>
      destruct (m s0) as [[[st1 s1] ev1]|] eqn:E; [|discriminate H];
      injection H as -> -> _;
      refine (wp_elim m (fun _ s2 _ =>
                getPidILowDivI (profile env)
                <= integral_error (mDescriptor s2)
                <= getPidIHighDivI (profile env)) s0 _ _ _ _ E)
  end.
  wp_go; cbn; now apply pid_accumulate_integral.
Qed.

Lemma invoke_keeps_integral_within (lo hi : Z) (env : Env) (c : Call)
    (s : PowerHintSession) :
  lo <= hi -> call_within lo hi (env, c) -> integral_within lo hi s ->
  wp (invoke env c) (fun _ s' _ => integral_within lo hi s') s.
Proof.
  intros Hb (Hwf & <- & <- & Hc) Hs. cbn [fst snd] in *.
  unfold integral_within in *.
  destruct c; cbn [invoke];
    unfold close, pause, resume, updateTargetWorkDuration,
      reportActualWorkDuration, sendHint, setMode, setThreads;
    wp_go; session_simpl; try assumption.
  all: apply pid_accumulate_integral; try assumption.
  all: match goal with
       | H : bool_decide (_ = []) = false |- _ =>
           apply bool_decide_eq_false in H; exact H
       end.
Qed.

(** Once within the bounds, the accumulator stays within them through any
    sequence of calls made under profiles with these bounds. *)
Lemma run_calls_keep_integral_within (lo hi : Z) (cs : list (Env * Call)) :
  lo <= hi -> Forall (call_within lo hi) cs ->
  forall s, integral_within lo hi s ->
    wp (run_calls cs) (fun _ s' _ => integral_within lo hi s') s.
Proof.
  intros Hb Hcs. induction Hcs as [|[env c] cs Hc _ IH]; intros s Hs.
  - exact Hs.
  - cbn [run_calls]. apply wp_bind.
    eapply wp_mono; [|apply (invoke_keeps_integral_within lo hi); eassumption].
    intros st s1 ev1 Hs1. cbv beta. apply wp_bind.
    eapply wp_mono; [|apply IH; exact Hs1].
    intros sts s2 ev2 Hs2. exact Hs2.
Qed.

(** C8. With the integral bounds of the profile in order, a successful
    report under PID control leaves the descriptor's integral accumulator
    within the bounds, and it stays within them through every later
    sequence of calls made under these bounds: each per-sample
    accumulation is followed by the clamp, and nothing else writes the
    accumulator. *)
Theorem report_clamps_integral (env : Env) (ds : list WorkDuration)
    (s s' : PowerHintSession) (ev : list Event) :
  wf_profile (profile env) -> wf_durations ds ->
  mPidOn (profile env) = true ->
  getPidILowDivI (profile env) <= getPidIHighDivI (profile env) ->
  reportActualWorkDuration env ds s = Some (ok, s', ev) ->
  forall lo hi,
    lo = getPidILowDivI (profile env) ->
    hi = getPidIHighDivI (profile env) ->
    integral_within lo hi s' /\
    (forall cs sts s'' ev',
        Forall (call_within lo hi) cs ->
        run_calls cs s' = Some (sts, s'', ev') ->
        integral_within lo hi s'').
Proof.
  intros Hwf Hds Hon Hb H lo hi -> ->.
  assert (Hs' : integral_within (getPidILowDivI (profile env))
                  (getPidIHighDivI (profile env)) s')
    by exact (report_establishes_integral env ds s s' ev Hwf Hds Hon Hb H).
  split; [exact Hs'|].
  intros cs sts s'' ev' Hcs E.
  exact (wp_elim _ _ _ _ _ _
           (run_calls_keep_integral_within _ _ cs Hb Hcs s' Hs') E).
Qed.

Lemma report_clamps_integral_witness :
  integral_within (-120) 512
    (default sample_session
       (session_of
          (reportActualWorkDuration windowed_env late_frames
             sample_session))).
Proof.
  apply (report_clamps_integral windowed_env late_frames sample_session _
           (events_of
              (reportActualWorkDuration windowed_env late_frames
                 sample_session))).
  - repeat split; vm_compute; congruence.
  - vm_compute. congruence.
  - reflexivity.
  - vm_compute. congruence.
  - vm_compute. reflexivity.
  - reflexivity.
  - reflexivity.
Defined.

(** ** Conversions between integers and [double] *)

Lemma digits2_pos_lower (m : positive) :
  2 ^ (Z.pos (digits2_pos m) - 1) <= Z.pos m.
Proof.
  induction m as [m IH|m IH|]; cbn [digits2_pos].
  - rewrite Pos2Z.inj_succ.
    replace (Z.succ (Z.pos (digits2_pos m)) - 1)
      with (Z.succ (Z.pos (digits2_pos m) - 1)) by lia.
    rewrite Z.pow_succ_r by lia. lia.
  - rewrite Pos2Z.inj_succ.
    replace (Z.succ (Z.pos (digits2_pos m)) - 1)
      with (Z.succ (Z.pos (digits2_pos m) - 1)) by lia.
    rewrite Z.pow_succ_r by lia. lia.
  - reflexivity.
Qed.

Lemma digits2_pos_small (m : positive) :
  Z.pos m < 2 ^ 53 -> Z.pos (digits2_pos m) <= 53.
Proof.
  intros Hm. pose proof (digits2_pos_lower m) as Hl.
  destruct (Z.le_gt_cases (Z.pos (digits2_pos m)) 53) as [|Hgt]; [assumption|].
  exfalso.
  assert (2 ^ 53 <= 2 ^ (Z.pos (digits2_pos m) - 1))
    by (apply Z.pow_le_mono_r; lia).
  lia.
Qed.

Lemma digits2_pos_iter_xO (m k : positive) :
  digits2_pos (Pos.iter xO m k) = (digits2_pos m + k)%positive.
Proof.
  induction k as [|k IH] using Pos.peano_ind.
  - cbn. lia.
  - rewrite Pos.iter_succ. cbn [digits2_pos]. rewrite IH. lia.
Qed.

(** A mantissa of 53 digits with an exponent in range is left as it is by
    the rounding. *)
Lemma binary_round_aux_canonical (sx : bool) (m : positive) (e : Z) :
  Z.pos (digits2_pos m) = 53 -> -1074 <= e <= 971 ->
  binary_round_aux 53 1024 sx (Z.pos m) e loc_Exact = S754_finite sx m e.
Proof.
  intros Hd He.
  unfold binary_round_aux, shr_fexp, fexp, emin.
  cbn [Zdigits2 shr_record_of_loc]. rewrite Hd.
  replace (Z.max (53 + e - 53) (3 - 1024 - 53) - e) with 0 by lia.
  cbn [shr shr_m loc_of_shr_record round_nearest_even Zdigits2
       shr_record_of_loc].
  rewrite Hd.
  replace (Z.max (53 + e - 53) (3 - 1024 - 53) - e) with 0 by lia.
  cbn [shr shr_m].
  destruct (Z.leb_spec e (1024 - 53)); [reflexivity | lia].
Qed.

(** An integer below [2^53] in magnitude converts to a finite [double]. *)
Lemma of_int_finite (z : Z) :
  z <> 0 -> - 2 ^ 53 < z < 2 ^ 53 ->
  exists sx m e, Double.of_int z = S754_finite sx m e.
Proof.
  intros Hz Hr.
  assert (round : forall sx p, Z.pos p < 2 ^ 53 ->
            exists m e, binary_round 53 1024 sx p 0 = S754_finite sx m e).
  { intros sx p Hp.
    pose proof (digits2_pos_small p Hp) as Hd.
    unfold binary_round, shl_align, fexp, emin.
    replace (Z.max (Z.pos (digits2_pos p) + 0 - 53) (3 - 1024 - 53) - 0)
      with (Z.pos (digits2_pos p) - 53) by lia.
    replace (Z.max (Z.pos (digits2_pos p) + 0 - 53) (3 - 1024 - 53))
      with (Z.pos (digits2_pos p) - 53) by lia.
    destruct (Z.pos (digits2_pos p) - 53) as [|k|k] eqn:Ek; [|lia|].
    - eexists _, _. apply binary_round_aux_canonical; lia.
    - eexists _, _. apply binary_round_aux_canonical; [|lia].
      rewrite digits2_pos_iter_xO. lia. }
  unfold Double.of_int, Double.prec, Double.emax, binary_normalize.
  destruct z as [|p|p]; [congruence| |].
  - destruct (round false p) as (m & e & E); [lia|]. eauto.
  - destruct (round true p) as (m & e & E); [lia|]. eauto.
Qed.

Lemma ns_to_100us_small (t : Z) :
  Int.is_int64 t -> - 2 ^ 53 < ns_to_100us t < 2 ^ 53.
Proof.
  unfold Int.is_int64, Int.INT64_MIN, Int.INT64_MAX, ns_to_100us.
  intros H.
  pose proof (Z.quot_rem' t 100000) as Hq.
  pose proof (Z.rem_bound_abs t 100000) as Hr.
  change (2 ^ 63) with 9223372036854775808 in H.
  change (2 ^ 53) with 9007199254740992.
  lia.
Qed.

(** ** The PID round trip *)

Lemma pid_accumulate_on_target (cfg : AdpfConfig) (d : AppHintDesc)
    (a : WorkDuration) :
  unit_gains cfg ->
  integral_error d = 0 -> previous_error d = 0 ->
  durationNanos a = targetNs d ->
  getPidILowDivI cfg <= 0 <= getPidIHighDivI cfg ->
  pid_accumulate cfg d [a] = mkPidAcc 0 0 0 0.
Proof.
  intros (_ & HP & HI & HD & _) Hie Hpe Ha Hb.
  unfold pid_accumulate. rewrite HP, HI, HD, Hie, Hpe.
  change (window_start 0 (Z.of_nat (List.length [a]))) with 0.
  change (Z.min 0 (Z.min 0 0)) with 0. change (Z.to_nat 0) with 0%nat.
  cbn [drop pid_loop].
  unfold pid_step. cbn [acc_derivative_sum acc_err_sum acc_integral_error
                        acc_previous_error].
  rewrite Ha, Z.sub_diag.
  change (ns_to_100us (Int.to_int64 0)) with 0.
  change (0 <=? 0) with true. cbv iota.
  rewrite Z.mul_0_l.
  change (Int.to_int64 (0 + Int.to_int64 (0 - 0))) with 0.
  change (Int.to_int64 (0 + 0)) with 0.
  change (Int.to_int64 (0 + Int.to_int64 0)) with 0.
  f_equal. unfold clamp_integral. lia.
Qed.

Lemma trunc_zero_quotient (z : Z) :
  z <> 0 -> - 2 ^ 53 < z < 2 ^ 53 ->
  Double.to_int64
    (Double.div
       (Double.div (Double.mul Double.one (Double.of_int 0)) (Double.of_int z))
       (Double.of_int 1))
  = Some 0.
Proof.
  intros Hz Hr. destruct (of_int_finite z Hz Hr) as (sx & m & e & ->).
  destruct sx; reflexivity.
Qed.

Lemma div64_zero (z : Z) : z <> 0 -> Int.div64 0 z = Some 0.
Proof.
  intros Hz. unfold Int.div64.
  destruct (Z.eqb_spec z 0); [contradiction|]. reflexivity.
Qed.

Lemma with_descriptor_same (s : PowerHintSession) :
  integral_error (mDescriptor s) = 0 -> previous_error (mDescriptor s) = 0 ->
  with_descriptor (set_pid_errors 0 0) s = s.
Proof.
  destruct s as [sid [] t c h l m]. cbn. intros -> ->. reflexivity.
Qed.

(** On a sample equal to the target the boost is zero and the descriptor
    keeps its accumulators. *)
Lemma convert_on_target (env : Env) (s : PowerHintSession) (a : WorkDuration) :
  unit_gains (profile env) ->
  integral_error (mDescriptor s) = 0 -> previous_error (mDescriptor s) = 0 ->
  durationNanos a = targetNs (mDescriptor s) ->
  Int.is_int64 (targetNs (mDescriptor s)) ->
  ns_to_100us (targetNs (mDescriptor s)) <> 0 ->
  getPidILowDivI (profile env) <= 0 <= getPidIHighDivI (profile env) ->
  convertWorkDurationToBoostByPid env [a] s =
  Some (0, s,
        [ATRACE_INT trace_pid_err 0; ATRACE_INT trace_pid_integral 0;
         ATRACE_INT trace_pid_derivative 0; ATRACE_INT trace_pid_pOut 0;
         ATRACE_INT trace_pid_iOut 0; ATRACE_INT trace_pid_dOut 0;
         ATRACE_INT trace_pid_output 0]).
Proof.
  intros Hg Hie Hpe Ha Ht Hdt Hb.
  unfold convertWorkDurationToBoostByPid.
  rewrite bind_unfold. cbn [get]. lazy zeta.
  rewrite (pid_accumulate_on_target _ _ a Hg Hie Hpe Ha Hb).
  destruct Hg as (_ & HP & HI & HD & HPo & HPu & HIg & HDo & HDu).
  rewrite HP, HD, HPu, HIg, HDu.
  cbn [acc_derivative_sum acc_err_sum acc_integral_error acc_previous_error].
  change (window_start 0 (Z.of_nat (List.length [a]))) with 0.
  change (Z.of_nat (List.length [a]) - 0) with 1.
  change (0 <? 0) with false. cbv iota.
  rewrite bind_unfold. unfold modify at 1.
  rewrite (with_descriptor_same s Hie Hpe).
  rewrite (trunc_zero_quotient _ Hdt (ns_to_100us_small _ Ht)).
  rewrite (div64_zero _ Hdt).
  reflexivity.
Qed.

(** C4 (as amended). With whole-history windows, unit gains, zeroed
    accumulators and one reported duration equal to a stored target of at
    least 100 microseconds in magnitude, a report on an open, active
    session succeeds with boost 0 provided 0 lies within the integral
    bounds; the new set point is the old one clamped into the profile's
    low and high bounds, so it is unchanged provided it already lay within
    them. *)
Theorem report_on_target_keeps_set_point (env : Env) (s : PowerHintSession)
    (a : WorkDuration) (valid : Z) :
  unit_gains (profile env) ->
  mSessionClosed s = false -> is_active (mDescriptor s) = true ->
  integral_error (mDescriptor s) = 0 -> previous_error (mDescriptor s) = 0 ->
  durationNanos a = targetNs (mDescriptor s) ->
  Int.is_int64 (targetNs (mDescriptor s)) ->
  ns_to_100us (targetNs (mDescriptor s)) <> 0 ->
  stale_duration (profile env) (targetNs (mDescriptor s)) = Some valid ->
  getPidILowDivI (profile env) <= 0 <= getPidIHighDivI (profile env) ->
  0 <= mUclampMinLow (profile env) <= Int.INT_MAX ->
  0 <= mUclampMinHigh (profile env) <= Int.INT_MAX ->
  - 2 ^ 31 <= pidSetPoint (mDescriptor s) <= Int.INT_MAX ->
  exists s' ev,
    reportActualWorkDuration env [a] s = Some (ok, s', ev) /\
    In (ATRACE_INT trace_pid_output 0) ev /\
    pidSetPoint (mDescriptor s')
      = clamp_set_point (profile env) (pidSetPoint (mDescriptor s)) /\
    (mUclampMinLow (profile env) <= pidSetPoint (mDescriptor s)
       <= mUclampMinHigh (profile env) ->
     pidSetPoint (mDescriptor s') = pidSetPoint (mDescriptor s)).
Proof.
  intros Hg Ho Ha Hie Hpe Hd Ht Hdt Hv Hb Hlo Hhi Hsp.
  assert (Ht0 : targetNs (mDescriptor s) <> 0).
  { intros E. apply Hdt. rewrite E. reflexivity. }
  assert (Hon : mPidOn (profile env) = true) by apply Hg.
  cut (wpt (reportActualWorkDuration env [a])
         (fun st s' ev =>
            st = ok /\ In (ATRACE_INT trace_pid_output 0) ev /\
            pidSetPoint (mDescriptor s')
              = clamp_set_point (profile env) (pidSetPoint (mDescriptor s))) s).
  { intros W. apply wpt_elim in W as (st & s' & ev & E & -> & Hin & Hp).
    exists s', ev. repeat split; try assumption.
    intros Hin'. rewrite Hp. unfold clamp_set_point. lia. }
  unfold reportActualWorkDuration.
  apply wpt_bind, wpt_get. rewrite Ho, Ha, Hon.
  destruct (Z.eqb_spec (targetNs (mDescriptor s)) 0) as [|_]; [contradiction|].
  cbn [bool_decide decide_rel negb].
  change (bool_decide ([a] = [])) with false. cbv iota.
  assert (Hclamp :
    Z.max (Int.to_int32 (mUclampMinLow (profile env)))
      (Z.min (Int.to_int32 (mUclampMinHigh (profile env)))
         (Int.to_int32 (pidSetPoint (mDescriptor s) + Int.to_int32 0)))
    = clamp_set_point (profile env) (pidSetPoint (mDescriptor s))).
  { change (Int.to_int32 0) with 0. rewrite Z.add_0_r.
    rewrite !to_int32_id by lia. reflexivity. }
  wpt_go;
    (eapply wpt_equation;
     [apply convert_on_target; cbn; assumption|]);
    wpt_go; cbn;
    (split; [reflexivity|split; [tauto|exact Hclamp]]).
Qed.

Lemma report_on_target_keeps_set_point_witness :
  exists s' ev,
    reportActualWorkDuration sample_env [mkWorkDuration 0 16666666]
      settled_session = Some (ok, s', ev) /\
    In (ATRACE_INT trace_pid_output 0) ev /\
    pidSetPoint (mDescriptor s') = clamp_set_point unit_gain_profile 162 /\
    (2 <= 162 <= 480 -> pidSetPoint (mDescriptor s') = 162).
Proof.
  apply (report_on_target_keeps_set_point sample_env settled_session
           (mkWorkDuration 0 16666666) 333333320).
  - repeat split; reflexivity.
  - reflexivity.
  - reflexivity.
  - reflexivity.
  - reflexivity.
  - reflexivity.
  - vm_compute. split; congruence.
  - vm_compute. congruence.
  - vm_compute. reflexivity.
  - vm_compute. split; congruence.
  - vm_compute. split; congruence.
  - vm_compute. split; congruence.
  - vm_compute. split; congruence.
Defined.

(** C4, as first stated, fails on a freshly opened session: its set point
    is 0, below the low clamp bound of the profile, so the report computes
    boost 0 and still moves the set point up to that bound. *)
Lemma report_on_target_moves_set_point :
  unit_gains (profile sample_env) /\
  integral_error (mDescriptor sample_session) = 0 /\
  previous_error (mDescriptor sample_session) = 0 /\
  pidSetPoint (mDescriptor sample_session) = 0 /\
  status_of (reportActualWorkDuration sample_env
               [mkWorkDuration 0 (targetNs (mDescriptor sample_session))]
               sample_session) = Some ok /\
  (pidSetPoint ∘ mDescriptor) <$>
    session_of (reportActualWorkDuration sample_env
                  [mkWorkDuration 0 (targetNs (mDescriptor sample_session))]
                  sample_session) = Some 2.
Proof. repeat split; vm_compute; reflexivity. Qed.

(** ** Target update followed by a report *)

(** A report on an open session whose stored target is 0 stops at the
    guard on the target. *)
Lemma report_untargeted (env : Env) (ds : list WorkDuration)
    (s : PowerHintSession) :
  mSessionClosed s = false -> targetNs (mDescriptor s) = 0 ->
  reportActualWorkDuration env ds s
  = Some (EX_ILLEGAL_STATE, s, [not_yet_targeted]).
Proof.
  intros Ho Ht. unfold reportActualWorkDuration.
  rewrite bind_unfold. cbn [get]. rewrite Ho, Ht. reflexivity.
Qed.

(** A report on a session whose stored target is not 0 never stops at the
    guard on the target. *)
Lemma report_targeted (env : Env) (ds : list WorkDuration)
    (s : PowerHintSession) :
  targetNs (mDescriptor s) <> 0 ->
  ~ fails_not_yet_targeted (reportActualWorkDuration env ds s).
Proof.
  intros Hne [Hst Hin].
  unfold reportActualWorkDuration in Hst, Hin.
  rewrite bind_unfold in Hst, Hin. cbn [get] in Hst, Hin.
  destruct (mSessionClosed s).
  { cbn in Hin. destruct Hin as [Hin|[]]. discriminate Hin. }
  destruct (Z.eqb_spec (targetNs (mDescriptor s)) 0) as [|_]; [contradiction|].
  destruct (bool_decide (ds = [])); [cbn in Hst; discriminate Hst|].
  destruct (negb _).
  { cbn in Hin. destruct Hin as [Hin|[]]. discriminate Hin. }
  match type of Hst with
  | status_of (match ?m ?s0 with _ => _ end) = _ =>
      destruct (m s0) as [[[st2 s2] ev2]|] eqn:E;
        [|cbn in Hst; discriminate Hst];
      assert (R : st2 = ok)
        by (refine (returns_elim m (fun st => st = ok) s0 _ _ _ _ E);
            solve [solve_returns])
  end.
  cbn in Hst. rewrite R in Hst. discriminate Hst.
Qed.

(** C3 (as amended). A successful [updateTargetWorkDuration d] with
    [d > 0] stores [d] times the target-time factor, cut to an integer, as
    the target; whenever that stored target is not 0, a report that
    follows does not fail as "not yet targeted". *)
Theorem update_then_report_targeted (env env' : Env) (d : Z)
    (ds : list WorkDuration) (s s1 : PowerHintSession) (ev1 : list Event) :
  0 < d ->
  updateTargetWorkDuration env d s = Some (ok, s1, ev1) ->
  Double.to_int64
    (Double.mul (Double.of_int d) (mTargetTimeFactor (profile env)))
    = Some (targetNs (mDescriptor s1)) /\
  (targetNs (mDescriptor s1) <> 0 ->
   ~ fails_not_yet_targeted (reportActualWorkDuration env' ds s1)).
Proof.
  intros Hd H.
  unfold updateTargetWorkDuration in H. rewrite bind_unfold in H.
  cbn [get] in H.
  destruct (mSessionClosed s) eqn:Ho; [discriminate H|].
  destruct (Z.leb_spec d 0) as [|_]; [lia|].
  rewrite bind_unfold in H. unfold defined at 1 in H.
  destruct (Double.to_int64 _) as [scaled|] eqn:Es; [|discriminate H].
  cbn in H. injection H as <- _.
  split; [reflexivity|].
  apply report_targeted.
Qed.

Lemma update_then_report_targeted_witness :
  ~ fails_not_yet_targeted
      (reportActualWorkDuration sample_env [mkWorkDuration 0 8333333]
         (with_descriptor (set_targetNs 8333333) sample_session)).
Proof.
  apply (update_then_report_targeted sample_env sample_env 8333333
           [mkWorkDuration 0 8333333] sample_session
           (with_descriptor (set_targetNs 8333333) sample_session)
           [PSManager (mgr_updateTargetWorkDuration 1 ADPF_VOTE_DEFAULT
                         8333333);
            ATRACE_INT trace_target 8333333]).
  - lia.
  - vm_compute. reflexivity.
  - discriminate.
Defined.

(** C3, as first stated, fails under a target-time factor of one half: the
    accepted target of one nanosecond is stored as 0 and the report that
    follows is refused as "not yet targeted". *)
Lemma half_factor_update_then_report_fails :
  exists s1 ev1,
    updateTargetWorkDuration half_factor_env 1 sample_session
      = Some (ok, s1, ev1) /\
    fails_not_yet_targeted
      (reportActualWorkDuration half_factor_env [mkWorkDuration 0 1] s1).
Proof.
  eexists _, _. split; [vm_compute; reflexivity|].
  split; [reflexivity | now left].
Qed.

(** ** Targets below 100 microseconds *)

(** Whenever the guards of a report pass on a stored target whose
    100-microsecond value is 0, the PID computation meets a division by
    zero. *)
Lemma report_undefined_below_100us (env : Env) (ds : list WorkDuration)
    (s : PowerHintSession) :
  mSessionClosed s = false ->
  targetNs (mDescriptor s) <> 0 ->
  ds <> [] ->
  is_active (mDescriptor s) = true ->
  mPidOn (profile env) = true ->
  ns_to_100us (targetNs (mDescriptor s)) = 0 ->
  reportActualWorkDuration env ds s = None.
Proof.
  intros Ho Ht Hne Ha Hon Hdt. apply wp_false_none.
  unfold reportActualWorkDuration. apply wp_bind, wp_get.
  rewrite Ho, Ha, Hon.
  destruct (Z.eqb_spec (targetNs (mDescriptor s)) 0) as [|_]; [contradiction|].
  destruct (bool_decide_reflect (ds = [])) as [|_]; [contradiction|].
  cbn [negb].
  wp_go;
    repeat match goal with
           | H : Int.div64 _ (ns_to_100us _) = Some _ |- _ =>
               cbn in H; rewrite Hdt in H; discriminate H
           end.
Qed.

(** C2 fails at a stored target of one nanosecond, which
    [updateTargetWorkDuration 1] stores under a target-time factor of 1:
    every guard of the report passes, the divisor [ns_to_100us 1] is 0, and
    the PID computation divides by it, so the report has no defined
    result. *)
Lemma short_target_report_divides_by_zero :
  session_of (updateTargetWorkDuration sample_env 1 sample_session)
    = Some short_target_session /\
  mSessionClosed short_target_session = false /\
  targetNs (mDescriptor short_target_session) <> 0 /\
  is_active (mDescriptor short_target_session) = true /\
  mPidOn (profile sample_env) = true /\
  ns_to_100us (targetNs (mDescriptor short_target_session)) = 0 /\
  Int.div64 0 (ns_to_100us (targetNs (mDescriptor short_target_session)))
    = None /\
  reportActualWorkDuration sample_env [mkWorkDuration 0 1]
    short_target_session = None.
Proof. repeat split; try discriminate; vm_compute; reflexivity. Qed.

(** ** Thread-set changes *)

(** C9. On a session that is not closed, [setThreads] with an empty list
    fails with IllegalArgument; on a closed session it fails with
    IllegalState; either refusal leaves the session as it is.  With a
    non-empty list, the validity window of the vote being representable,
    it succeeds, forwards the list to the manager, and the set point of
    the descriptor becomes the profile's init bound (as an [int], the
    init bound itself up to [INT_MAX]), votes that value as the default,
    and changes nothing else in the session. *)
Theorem setThreads_resets_set_point (env : Env) (s : PowerHintSession)
    (threadIds : list Z) :
  (mSessionClosed s = true ->
     setThreads env threadIds s
     = Some (EX_ILLEGAL_STATE, s, [session_is_dead])) /\
  (mSessionClosed s = false ->
     setThreads env [] s
     = Some (EX_ILLEGAL_ARGUMENT, s,
             [ALOGE "Error: threadIds should not be empty"])) /\
  (mSessionClosed s = false -> threadIds <> [] ->
     forall valid,
       stale_duration (profile env) (targetNs (mDescriptor s)) = Some valid ->
       exists s' ev,
         setThreads env threadIds s = Some (ok, s', ev) /\
         pidSetPoint (mDescriptor s')
           = Int.to_int32 (mUclampMinInit (profile env)) /\
         (0 <= mUclampMinInit (profile env) <= Int.INT_MAX ->
          pidSetPoint (mDescriptor s') = mUclampMinInit (profile env)) /\
         ev =
           [PSManager (setThreadsFromPowerSession (mSessionId s) threadIds);
            PSManager (voteSet (mSessionId s) ADPF_VOTE_DEFAULT
                         (pidSetPoint (mDescriptor s'))
                         (kUclampMax env) (now env) valid);
            ATRACE_INT trace_min (pidSetPoint (mDescriptor s'))] /\
         s' = with_descriptor
                (set_pidSetPoint (Int.to_int32 (mUclampMinInit (profile env))))
                s /\
         targetNs (mDescriptor s') = targetNs (mDescriptor s) /\
         is_active (mDescriptor s') = is_active (mDescriptor s) /\
         update_count (mDescriptor s') = update_count (mDescriptor s) /\
         integral_error (mDescriptor s') = integral_error (mDescriptor s) /\
         previous_error (mDescriptor s') = previous_error (mDescriptor s) /\
         mSessionClosed s' = false /\
         mLastUpdatedTime s' = mLastUpdatedTime s).
Proof.
  split; [|split].
  - intros Hc. unfold setThreads. rewrite bind_unfold. cbn [get].
    rewrite Hc. reflexivity.
  - intros Hc. unfold setThreads. rewrite bind_unfold. cbn [get].
    rewrite Hc. reflexivity.
  - intros Hc Hne valid Hv.
    cut (wpt (setThreads env threadIds)
           (fun st s' ev =>
              st = ok /\
              pidSetPoint (mDescriptor s')
                = Int.to_int32 (mUclampMinInit (profile env)) /\
              ev =
                [PSManager
                   (setThreadsFromPowerSession (mSessionId s) threadIds);
                 PSManager
                   (voteSet (mSessionId s) ADPF_VOTE_DEFAULT
                      (pidSetPoint (mDescriptor s'))
                      (kUclampMax env) (now env) valid);
                 ATRACE_INT trace_min (pidSetPoint (mDescriptor s'))] /\
              s' = with_descriptor
                     (set_pidSetPoint
                        (Int.to_int32 (mUclampMinInit (profile env)))) s /\
              targetNs (mDescriptor s') = targetNs (mDescriptor s) /\
              is_active (mDescriptor s') = is_active (mDescriptor s) /\
              update_count (mDescriptor s') = update_count (mDescriptor s) /\
              integral_error (mDescriptor s') = integral_error (mDescriptor s) /\
              previous_error (mDescriptor s') = previous_error (mDescriptor s) /\
              mSessionClosed s' = mSessionClosed s /\
              mLastUpdatedTime s' = mLastUpdatedTime s) s).
    { intros W.
      apply wpt_elim in W
        as (st & s' & ev & E & -> & Hp & Hev & Hs & Ht & Ha & Hu & Hi & He
            & Hcl & Hl).
      exists s', ev. split; [exact E|]. split; [exact Hp|].
      split; [intros Hr; rewrite Hp; apply to_int32_id; lia|].
      split; [exact Hev|]. split; [exact Hs|].
      split; [exact Ht|]. split; [exact Ha|]. split; [exact Hu|].
      split; [exact Hi|]. split; [exact He|].
      split; [rewrite Hcl; exact Hc | exact Hl]. }
    unfold setThreads. apply wpt_bind, wpt_get. rewrite Hc.
    destruct (bool_decide_reflect (threadIds = [])) as [|_]; [contradiction|].
    wpt_go. session_simpl. repeat split; first [reflexivity | exact Hc].
Qed.

Lemma setThreads_resets_set_point_witness :
  exists s' ev,
    setThreads sample_env [5; 6] sample_session = Some (ok, s', ev) /\
    pidSetPoint (mDescriptor s') = 162 /\
    targetNs (mDescriptor s') = targetNs (mDescriptor sample_session) /\
    ev = [PSManager (setThreadsFromPowerSession 1 [5; 6]);
          PSManager (voteSet 1 ADPF_VOTE_DEFAULT 162 1024 1000 333333320);
          ATRACE_INT trace_min 162].
Proof.
  destruct (setThreads_resets_set_point sample_env sample_session [5; 6])
    as (_ & _ & H).
  destruct (H eq_refl ltac:(discriminate) 333333320
              ltac:(vm_compute; reflexivity))
    as (s' & ev & E & Hp & _ & Hev & _ & Ht & _).
  exists s', ev. split; [exact E|].
  assert (Hq : pidSetPoint (mDescriptor s') = 162)
    by (rewrite Hp; vm_compute; reflexivity).
  split; [exact Hq|]. split; [exact Ht|].
  rewrite Hev, Hq. reflexivity.
Defined.

(** * Further properties of the session *)

(** ** What each call may write *)

Ltac unfold_calls :=
  unfold close, pause, resume, updateTargetWorkDuration,
    reportActualWorkDuration, sendHint, setMode, setThreads.

Ltac by_cases_on_call c :=
  destruct c; cbn [invoke]; unfold_calls; wp_go; session_simpl.

(** X1. No call, failed or successful, changes the identity of a session:
    the session id held by the controller and by the descriptor, the
    owner's thread-group id and its user id. *)
Theorem identity_is_immutable (env : Env) (c : Call)
    (s s' : PowerHintSession) (st : ScopedAStatus) (ev : list Event) :
  invoke env c s = Some (st, s', ev) ->
  mSessionId s' = mSessionId s /\
  sessionId (mDescriptor s') = sessionId (mDescriptor s) /\
  tgid (mDescriptor s') = tgid (mDescriptor s) /\
  uid (mDescriptor s') = uid (mDescriptor s).
Proof.
  intros H.
  refine (wp_elim (invoke env c)
            (fun _ s2 _ =>
               mSessionId s2 = mSessionId s /\
               sessionId (mDescriptor s2) = sessionId (mDescriptor s) /\
               tgid (mDescriptor s2) = tgid (mDescriptor s) /\
               uid (mDescriptor s2) = uid (mDescriptor s)) s _ _ _ _ H).
  by_cases_on_call c; repeat split; reflexivity.
Qed.

Lemma identity_is_immutable_witness :
  mSessionId settled_session = mSessionId sample_session /\
  sessionId (mDescriptor settled_session) = sessionId (mDescriptor sample_session) /\
  tgid (mDescriptor settled_session) = tgid (mDescriptor sample_session) /\
  uid (mDescriptor settled_session) = uid (mDescriptor sample_session).
Proof.
  refine (identity_is_immutable sample_env (call_setThreads [5; 6])
            sample_session settled_session ok
            [PSManager (setThreadsFromPowerSession 1 [5; 6]);
             PSManager (voteSet 1 ADPF_VOTE_DEFAULT 162 1024 1000 333333320);
             ATRACE_INT trace_min 162] _).
  vm_compute. reflexivity.
Defined.

(** X2. A successful report, hint or mode change sets the staleness
    timestamp to the time of the call; a successful pause, resume, close,
    target update or thread-set change leaves it as it was. *)
Theorem timestamp_refreshed_by (env : Env) (c : Call)
    (s s' : PowerHintSession) (ev : list Event) :
  invoke env c s = Some (ok, s', ev) ->
  mLastUpdatedTime s' =
    if refreshes_timestamp c then now env else mLastUpdatedTime s.
Proof.
  intros H.
  refine (wp_elim (invoke env c)
            (fun st s2 _ =>
               st = ok ->
               mLastUpdatedTime s2 =
                 if refreshes_timestamp c then now env
                 else mLastUpdatedTime s) s _ _ _ _ H eq_refl).
  by_cases_on_call c; intros; try discriminate; reflexivity.
Qed.

Lemma timestamp_refreshed_by_witness :
  mLastUpdatedTime settled_session = mLastUpdatedTime sample_session.
Proof.
  refine (timestamp_refreshed_by sample_env (call_setThreads [5; 6])
            sample_session settled_session
            [PSManager (setThreadsFromPowerSession 1 [5; 6]);
             PSManager (voteSet 1 ADPF_VOTE_DEFAULT 162 1024 1000 333333320);
             ATRACE_INT trace_min 162] _).
  vm_compute. reflexivity.
Defined.

(** X3. Each part of the descriptor has its writers: only a target update
    changes the stored target; only a report changes the update counter
    and the two PID accumulators; only a report, a hint or a thread-set
    change changes the set point; only pause, resume and close change the
    active flag. *)
Theorem descriptor_fields_have_writers (env : Env) (c : Call)
    (s s' : PowerHintSession) (st : ScopedAStatus) (ev : list Event) :
  invoke env c s = Some (st, s', ev) ->
  ((forall d, c <> call_updateTargetWorkDuration d) ->
     targetNs (mDescriptor s') = targetNs (mDescriptor s)) /\
  ((forall ds, c <> call_reportActualWorkDuration ds) ->
     update_count (mDescriptor s') = update_count (mDescriptor s) /\
     integral_error (mDescriptor s') = integral_error (mDescriptor s) /\
     previous_error (mDescriptor s') = previous_error (mDescriptor s)) /\
  (writes_set_point c = false ->
     pidSetPoint (mDescriptor s') = pidSetPoint (mDescriptor s)) /\
  (c <> call_pause -> c <> call_resume -> c <> call_close ->
     is_active (mDescriptor s') = is_active (mDescriptor s)).
Proof.
  intros H.
  refine (wp_elim (invoke env c)
            (fun _ s2 _ =>
               ((forall d, c <> call_updateTargetWorkDuration d) ->
                  targetNs (mDescriptor s2) = targetNs (mDescriptor s)) /\
               ((forall ds, c <> call_reportActualWorkDuration ds) ->
                  update_count (mDescriptor s2) = update_count (mDescriptor s) /\
                  integral_error (mDescriptor s2)
                    = integral_error (mDescriptor s) /\
                  previous_error (mDescriptor s2)
                    = previous_error (mDescriptor s)) /\
               (writes_set_point c = false ->
                  pidSetPoint (mDescriptor s2) = pidSetPoint (mDescriptor s)) /\
               (c <> call_pause -> c <> call_resume -> c <> call_close ->
                  is_active (mDescriptor s2) = is_active (mDescriptor s)))
            s _ _ _ _ H).
  by_cases_on_call c;
    (split; [|split; [|split]]);
    cbn [writes_set_point]; intros;
    try discriminate; try congruence;
    try (repeat split; reflexivity);
    try (exfalso; eauto; fail).
Qed.

Lemma descriptor_fields_have_writers_witness :
  targetNs (mDescriptor settled_session) = targetNs (mDescriptor sample_session) /\
  update_count (mDescriptor settled_session)
    = update_count (mDescriptor sample_session).
Proof.
  destruct (descriptor_fields_have_writers sample_env (call_setThreads [5; 6])
              sample_session settled_session ok
              [PSManager (setThreadsFromPowerSession 1 [5; 6]);
               PSManager (voteSet 1 ADPF_VOTE_DEFAULT 162 1024 1000 333333320);
               ATRACE_INT trace_min 162])
    as (Ht & Hp & _).
  - vm_compute. reflexivity.
  - split; [apply Ht; discriminate | apply Hp; discriminate].
Defined.

(** ** What a successful report does *)

Ltac session_simpl_all :=
  cbn [mSessionId mDescriptor mLastUpdatedTime mSessionClosed mSupportedHints
       mLastHintSent mModes sessionId tgid uid targetNs pidSetPoint is_active
       update_count integral_error previous_error
       with_descriptor set_targetNs set_pidSetPoint set_is_active
       set_update_count set_pid_errors set_mLastUpdatedTime set_mSessionClosed
       set_mSupportedHints set_mLastHintSent set_mModes] in *.

(** The guards of a report, read backwards: a report that succeeds was
    made on an open, targeted, active session with at least one
    duration. *)
Lemma report_success_passed_guards (env : Env) (ds : list WorkDuration)
    (s s' : PowerHintSession) (ev : list Event) :
  reportActualWorkDuration env ds s = Some (ok, s', ev) ->
  mSessionClosed s = false /\ targetNs (mDescriptor s) <> 0 /\
  ds <> [] /\ is_active (mDescriptor s) = true.
Proof.
  intros H. unfold reportActualWorkDuration in H.
  rewrite bind_unfold in H. cbn [get] in H.
  destruct (mSessionClosed s); [discriminate H|].
  destruct (Z.eqb_spec (targetNs (mDescriptor s)) 0); [discriminate H|].
  destruct (bool_decide_reflect (ds = [])); [discriminate H|].
  destruct (is_active (mDescriptor s)); [|discriminate H].
  repeat split; assumption.
Qed.

(** The part of a report that runs once the guards have passed. *)
Lemma report_past_guards (env : Env) (ds : list WorkDuration)
    (s : PowerHintSession) Q :
  mSessionClosed s = false -> targetNs (mDescriptor s) <> 0 ->
  ds <> [] -> is_active (mDescriptor s) = true ->
  (mSessionClosed s = false -> (targetNs (mDescriptor s) =? 0) = false ->
   bool_decide (ds = []) = false ->
   negb (is_active (mDescriptor s)) = false ->
   wp (reportActualWorkDuration env ds) Q s) ->
  wp (reportActualWorkDuration env ds) Q s.
Proof.
  intros Ho Ht Hne Ha H. apply H; try assumption.
  - now apply Z.eqb_neq.
  - now apply bool_decide_eq_false.
  - rewrite Ha. reflexivity.
Qed.

Ltac report_wp Ho Ht Hne Ha :=
  apply (report_past_guards _ _ _ _ Ho Ht Hne Ha);
  let G1 := fresh in let G2 := fresh in let G3 := fresh in let G4 := fresh in
  intros G1 G2 G3 G4;
  unfold reportActualWorkDuration; apply wp_bind, wp_get;
  rewrite G1, G2, G3, G4.

(** X4. A successful report leaves the set point within the profile's low
    and high clamp bounds, PID control on or off, whenever the bounds are
    in order and fit an [int]. *)
Theorem report_set_point_within_bounds (env : Env) (ds : list WorkDuration)
    (s s' : PowerHintSession) (ev : list Event) :
  0 <= mUclampMinLow (profile env) ->
  mUclampMinLow (profile env) <= mUclampMinHigh (profile env) ->
  mUclampMinHigh (profile env) <= Int.INT_MAX ->
  reportActualWorkDuration env ds s = Some (ok, s', ev) ->
  mUclampMinLow (profile env) <= pidSetPoint (mDescriptor s')
    <= mUclampMinHigh (profile env).
Proof.
  intros Hlo Hle Hhi H.
  destruct (report_success_passed_guards _ _ _ _ _ H) as (Ho & Ht & Hne & Ha).
  refine (wp_elim (reportActualWorkDuration env ds)
            (fun _ s2 _ =>
               mUclampMinLow (profile env) <= pidSetPoint (mDescriptor s2)
                 <= mUclampMinHigh (profile env)) s _ _ _ _ H).
  report_wp Ho Ht Hne Ha.
  wp_go; session_simpl;
    try (rewrite (to_int32_id (mUclampMinLow (profile env))) by lia);
    try (rewrite (to_int32_id (mUclampMinHigh (profile env))) by lia);
    lia.
Qed.

(** X5. With PID control off, a successful report sets the set point to the
    profile's high bound whatever the durations are, counts the report and
    leaves both PID accumulators as they were. *)
Theorem report_with_pid_off (env : Env) (ds : list WorkDuration)
    (s s' : PowerHintSession) (ev : list Event) :
  mPidOn (profile env) = false ->
  reportActualWorkDuration env ds s = Some (ok, s', ev) ->
  pidSetPoint (mDescriptor s') = Int.to_int32 (mUclampMinHigh (profile env)) /\
  update_count (mDescriptor s')
    = Int.to_uint64 (update_count (mDescriptor s) + 1) /\
  integral_error (mDescriptor s') = integral_error (mDescriptor s) /\
  previous_error (mDescriptor s') = previous_error (mDescriptor s).
Proof.
  intros Hoff H.
  destruct (report_success_passed_guards _ _ _ _ _ H) as (Ho & Ht & Hne & Ha).
  refine (wp_elim (reportActualWorkDuration env ds)
            (fun _ s2 _ =>
               pidSetPoint (mDescriptor s2)
                 = Int.to_int32 (mUclampMinHigh (profile env)) /\
               update_count (mDescriptor s2)
                 = Int.to_uint64 (update_count (mDescriptor s) + 1) /\
               integral_error (mDescriptor s2) = integral_error (mDescriptor s) /\
               previous_error (mDescriptor s2) = previous_error (mDescriptor s))
            s _ _ _ _ H).
  report_wp Ho Ht Hne Ha. rewrite Hoff. cbn [negb].
  wp_go; session_simpl; repeat split; reflexivity.
Qed.

(** X6. A report succeeds only on an open, targeted, active session and
    with at least one duration; it then counts itself once, modulo 2^64,
    and leaves the target, the active flag and the closed flag alone. *)
Theorem report_success_bookkeeping (env : Env) (ds : list WorkDuration)
    (s s' : PowerHintSession) (ev : list Event) :
  reportActualWorkDuration env ds s = Some (ok, s', ev) ->
  (mSessionClosed s = false /\ targetNs (mDescriptor s) <> 0 /\
   ds <> [] /\ is_active (mDescriptor s) = true) /\
  update_count (mDescriptor s')
    = Int.to_uint64 (update_count (mDescriptor s) + 1) /\
  targetNs (mDescriptor s') = targetNs (mDescriptor s) /\
  is_active (mDescriptor s') = true /\
  mSessionClosed s' = false.
Proof.
  intros H.
  pose proof (report_success_passed_guards _ _ _ _ _ H) as G.
  split; [exact G|]. destruct G as (Ho & Ht & Hne & Ha).
  refine (wp_elim (reportActualWorkDuration env ds)
            (fun _ s2 _ =>
               update_count (mDescriptor s2)
                 = Int.to_uint64 (update_count (mDescriptor s) + 1) /\
               targetNs (mDescriptor s2) = targetNs (mDescriptor s) /\
               is_active (mDescriptor s2) = true /\
               mSessionClosed s2 = false)
            s _ _ _ _ H).
  report_wp Ho Ht Hne Ha.
  wp_go; session_simpl; repeat split; assumption || reflexivity.
Qed.

Ltac use_stale_duration Hv :=
  session_simpl_all;
  repeat match goal with
         | H : stale_duration _ _ = Some _ |- _ =>
             lazymatch H with
             | Hv => fail
             | _ => rewrite Hv in H; injection H as <-
             end
         end.

(** X7. What a successful report sends to the session manager: the
    request to recompute the universal boost when the session had gone
    stale, then [disableBoosts], then exactly one default vote; the vote
    carries the set point that the report stored and is valid for the
    stale-time window. *)
Theorem report_manager_calls (env : Env) (ds : list WorkDuration)
    (s s' : PowerHintSession) (ev : list Event) (valid : Z) :
  stale_duration (profile env) (targetNs (mDescriptor s)) = Some valid ->
  reportActualWorkDuration env ds s = Some (ok, s', ev) ->
  manager_calls ev =
    (if Int.to_int64 (mLastUpdatedTime s + valid) <=? now env
     then [updateUniversalBoostMode] else []) ++
    [disableBoosts (mSessionId s);
     voteSet (mSessionId s) ADPF_VOTE_DEFAULT (pidSetPoint (mDescriptor s'))
       (kUclampMax env) (now env) valid].
Proof.
  intros Hv H.
  destruct (report_success_passed_guards _ _ _ _ _ H) as (Ho & Ht & Hne & Ha).
  refine (wp_elim (reportActualWorkDuration env ds)
            (fun _ s2 ev2 =>
               manager_calls ev2 =
                 (if Int.to_int64 (mLastUpdatedTime s + valid) <=? now env
                  then [updateUniversalBoostMode] else []) ++
                 [disableBoosts (mSessionId s);
                  voteSet (mSessionId s) ADPF_VOTE_DEFAULT
                    (pidSetPoint (mDescriptor s2))
                    (kUclampMax env) (now env) valid])
            s _ _ _ _ H).
  report_wp Ho Ht Hne Ha.
  wp_go; use_stale_duration Hv;
    match goal with
    | E : (_ <=? _) = _ |- _ => rewrite E
    end; reflexivity.
Qed.

(** X8. The only platform hint a successful report can fire is the
    first-frame hint, and it fires it exactly when the session had gone
    stale, belongs to an application, and the platform supports the hint
    (by the cached answer when there is one). *)
Theorem report_first_frame_hint (env : Env) (ds : list WorkDuration)
    (s s' : PowerHintSession) (ev : list Event) (valid : Z) :
  stale_duration (profile env) (targetNs (mDescriptor s)) = Some valid ->
  reportActualWorkDuration env ds s = Some (ok, s', ev) ->
  hints_done ev =
    if (Int.to_int64 (mLastUpdatedTime s + valid) <=? now env)
       && (AID_APP_START env <=? uid (mDescriptor s))
       && default (IsHintSupported env "ADPF_FIRST_FRAME")
            (mSupportedHints s !! "ADPF_FIRST_FRAME")
    then ["ADPF_FIRST_FRAME"] else [].
Proof.
  intros Hv H.
  destruct (report_success_passed_guards _ _ _ _ _ H) as (Ho & Ht & Hne & Ha).
  refine (wp_elim (reportActualWorkDuration env ds)
            (fun _ _ ev2 =>
               hints_done ev2 =
                 if (Int.to_int64 (mLastUpdatedTime s + valid) <=? now env)
                    && (AID_APP_START env <=? uid (mDescriptor s))
                    && default (IsHintSupported env "ADPF_FIRST_FRAME")
                         (mSupportedHints s !! "ADPF_FIRST_FRAME")
                 then ["ADPF_FIRST_FRAME"] else [])
            s _ _ _ _ H).
  report_wp Ho Ht Hne Ha.
  wp_go; use_stale_duration Hv;
    repeat match goal with
           | E : (_ <=? _) = _ |- _ => rewrite E; clear E
           end;
    cbn [andb];
    repeat match goal with
           | E : mSupportedHints s !! _ = _ |- _ => rewrite E in *; clear E
           | E : <[_ := _]> _ !! _ = _ |- _ =>
               rewrite lookup_insert_eq in E
           | E : Some _ = Some _ |- _ => injection E as E
           | E : Some _ = None |- _ => discriminate E
           | E : None = Some _ |- _ => discriminate E
           end;
    cbn [default from_option]; subst;
    try match goal with
        | E : IsHintSupported _ _ = _ |- _ => rewrite E
        end;
    try reflexivity.
Qed.

(** ** The cache of supported hints *)

Lemma tryToSendPowerHint_run (env : Env) (hint : string)
    (s : PowerHintSession) :
  tryToSendPowerHint env hint s =
  let b := default (IsHintSupported env hint) (mSupportedHints s !! hint) in
  Some (tt,
        match mSupportedHints s !! hint with
        | Some _ => s
        | None => set_mSupportedHints (<[hint := b]> (mSupportedHints s)) s
        end,
        if b then [DoHint hint] else []).
Proof.
  unfold tryToSendPowerHint. rewrite bind_unfold. cbn [get].
  destruct (mSupportedHints s !! hint) as [b|] eqn:E.
  - rewrite bind_unfold. cbn [mret M_mret M_ret]. rewrite bind_unfold.
    cbn [get]. rewrite E. cbn. destruct b; reflexivity.
  - rewrite bind_unfold. cbn [modify]. rewrite bind_unfold. cbn [get].
    cbn [mSupportedHints set_mSupportedHints].
    rewrite lookup_insert_eq. cbn.
    destruct (IsHintSupported env hint); reflexivity.
Qed.

(** X9. The platform is asked at most once whether it supports a hint:
    the first attempt caches the answer, entries of the cache are never
    overwritten, and whether the hint is fired then depends on the cache
    alone: a later attempt, under any answer of the platform, finds the
    cached one, fires accordingly and changes nothing. *)
Theorem hint_support_is_asked_once (env env' : Env) (hint : string)
    (s : PowerHintSession) :
  exists s1 ev1,
    tryToSendPowerHint env hint s = Some (tt, s1, ev1) /\
    let b := default (IsHintSupported env hint) (mSupportedHints s !! hint) in
    mSupportedHints s1 !! hint = Some b /\
    hints_done ev1 = (if b then [hint] else []) /\
    (forall h v, mSupportedHints s !! h = Some v ->
                 mSupportedHints s1 !! h = Some v) /\
    mDescriptor s1 = mDescriptor s /\
    tryToSendPowerHint env' hint s1
      = Some (tt, s1, if b then [DoHint hint] else []).
Proof.
  rewrite tryToSendPowerHint_run. cbv zeta.
  eexists _, _. split; [reflexivity|].
  destruct (mSupportedHints s !! hint) as [b|] eqn:E; cbn [default from_option].
  - repeat split.
    + exact E.
    + destruct b; reflexivity.
    + auto.
    + rewrite tryToSendPowerHint_run, E. cbn. reflexivity.
  - repeat split.
    + cbn [mSupportedHints set_mSupportedHints]. apply lookup_insert_eq.
    + destruct (IsHintSupported env hint); reflexivity.
    + intros h v Hh. cbn [mSupportedHints set_mSupportedHints].
      rewrite lookup_insert_ne; [exact Hh|]. intros ->. congruence.
    + rewrite tryToSendPowerHint_run.
      cbn [mSupportedHints set_mSupportedHints].
      rewrite lookup_insert_eq. cbn. reflexivity.
Qed.

(** ** Session hints *)

(** X10. The guards of [sendHint] in their order: a closed session answers
    IllegalState; an open session with a stored target of 0 answers
    IllegalState, for an unrecognized hint too; an open, targeted session
    answers IllegalArgument to an unrecognized hint; and a recognized hint
    on an open, targeted session never fails.  The three refusals change
    nothing and send nothing. *)
Theorem sendHint_guards (env : Env) (hint : SessionHint)
    (s : PowerHintSession) :
  (mSessionClosed s = true ->
     sendHint env hint s = Some (EX_ILLEGAL_STATE, s, [session_is_dead])) /\
  (mSessionClosed s = false -> targetNs (mDescriptor s) = 0 ->
     sendHint env hint s = Some (EX_ILLEGAL_STATE, s, [not_yet_targeted])) /\
  (mSessionClosed s = false -> targetNs (mDescriptor s) <> 0 ->
     forall raw,
       sendHint env (SessionHint_other raw) s
       = Some (EX_ILLEGAL_ARGUMENT, s, [ALOGE "Error: hint is invalid"])) /\
  (mSessionClosed s = false -> targetNs (mDescriptor s) <> 0 ->
     (forall raw, hint <> SessionHint_other raw) ->
     forall st s' ev, sendHint env hint s = Some (st, s', ev) -> st = ok).
Proof.
  unfold sendHint. rewrite !bind_unfold. cbn [get].
  split; [|split; [|split]].
  - intros ->. reflexivity.
  - intros -> ->. reflexivity.
  - intros -> Ht raw.
    destruct (Z.eqb_spec (targetNs (mDescriptor s)) 0); [contradiction|].
    reflexivity.
  - intros -> Ht Hrec st s' ev.
    destruct (Z.eqb_spec (targetNs (mDescriptor s)) 0); [contradiction|].
    destruct hint; try (exfalso; eapply Hrec; reflexivity);
      intros H;
      match type of H with
      | match ?m ?s0 with _ => _ end = Some _ =>
          destruct (m s0) as [[[st2 s2] ev2]|] eqn:E; [|discriminate H];
          injection H as <- _ _;
          refine (returns_elim m (fun st => st = ok) s0 _ _ _ _ E);
          solve [solve_returns]
      end.
Qed.

Lemma sendHint_guards_witness :
  sendHint sample_env (SessionHint_other 9) closed_session
  = Some (EX_ILLEGAL_STATE, closed_session, [session_is_dead]) /\
  sendHint sample_env (SessionHint_other 9) sample_session
  = Some (EX_ILLEGAL_ARGUMENT, sample_session,
          [ALOGE "Error: hint is invalid"]).
Proof.
  split.
  - apply (sendHint_guards sample_env (SessionHint_other 9) closed_session).
    reflexivity.
  - apply (sendHint_guards sample_env (SessionHint_other 9) sample_session);
      [reflexivity | discriminate].
Defined.

(** X11. What a successful hint does to the set point and sends to the
    session manager.  LOAD_UP keeps the set point, votes it again as the
    default and adds a vote at the high bound valid for twice the target;
    LOAD_DOWN drops the set point to the low bound and votes it as the
    default; LOAD_RESET raises the set point to the init bound when it is
    below it, never lowers it, and sends only a reset vote valid for half
    the stale-time window; LOAD_RESUME keeps the set point and votes it
    for half the stale-time window.  Every hint is recorded as the last
    hint sent. *)
Theorem sendHint_effects (env : Env) (hint : SessionHint)
    (s s' : PowerHintSession) (ev : list Event) (valid half : Z) :
  stale_duration (profile env) (targetNs (mDescriptor s)) = Some valid ->
  half_stale_duration (profile env) (targetNs (mDescriptor s)) = Some half ->
  0 <= mUclampMinLow (profile env) <= Int.INT_MAX ->
  0 <= mUclampMinInit (profile env) <= Int.INT_MAX ->
  0 <= pidSetPoint (mDescriptor s) <= Int.INT_MAX ->
  sendHint env hint s = Some (ok, s', ev) ->
  let sid := mSessionId s in
  let sp := pidSetPoint (mDescriptor s) in
  let cfg := profile env in
  mLastHintSent s' = SessionHint_value hint /\
  match hint with
  | CPU_LOAD_UP =>
      pidSetPoint (mDescriptor s') = sp /\
      manager_calls ev =
        [voteSet sid ADPF_VOTE_DEFAULT sp (kUclampMax env) (now env) valid;
         voteSet sid ADPF_CPU_LOAD_UP (mUclampMinHigh cfg) (kUclampMax env)
           (now env) (Int.to_int64 (targetNs (mDescriptor s) * 2))]
  | CPU_LOAD_DOWN =>
      pidSetPoint (mDescriptor s') = mUclampMinLow cfg /\
      manager_calls ev =
        [voteSet sid ADPF_VOTE_DEFAULT (mUclampMinLow cfg) (kUclampMax env)
           (now env) valid]
  | CPU_LOAD_RESET =>
      pidSetPoint (mDescriptor s') = Z.max (mUclampMinInit cfg) sp /\
      manager_calls ev =
        [voteSet sid ADPF_CPU_LOAD_RESET (mUclampMinHigh cfg) (kUclampMax env)
           (now env) half]
  | CPU_LOAD_RESUME =>
      pidSetPoint (mDescriptor s') = sp /\
      manager_calls ev =
        [voteSet sid ADPF_CPU_LOAD_RESUME sp (kUclampMax env) (now env) half]
  | SessionHint_other _ => False
  end.
Proof.
  intros Hv Hh Hlo Hinit Hsp H sid sp cfg. subst sid sp cfg.
  assert (Hu : Int.to_uint32 (pidSetPoint (mDescriptor s))
               = pidSetPoint (mDescriptor s)).
  { unfold Int.to_uint32, Int.to_unsigned. apply Z.mod_small.
    unfold Int.INT_MAX in Hsp. lia. }
  refine (wp_elim (sendHint env hint)
            (fun st s2 ev2 => st = ok -> _ /\ _) s _ _ _ _ H eq_refl).
  unfold sendHint. apply wp_bind, wp_get.
  destruct (mSessionClosed s); [wp_go; discriminate|].
  destruct (targetNs (mDescriptor s) =? 0); [wp_go; discriminate|].
  destruct hint; wp_go; intros Hst; try discriminate Hst;
    use_stale_duration Hv;
    repeat match goal with
           | E : half_stale_duration _ _ = Some _ |- _ =>
               lazymatch E with
               | Hh => fail
               | _ => rewrite Hh in E; injection E as <-
               end
           end;
    try discriminate;
    cbn [SessionHint_value];
    rewrite ?Hu;
    try (rewrite (to_int32_id (mUclampMinLow (profile env)))
           by (unfold Int.INT_MAX in *; lia));
    try (rewrite (to_int32_id (Z.max _ _))
           by (unfold Int.INT_MAX in *; lia));
    (split; [apply to_int32_id; unfold Int.INT_MAX; lia|]);
    split; reflexivity.
Qed.

(** ** Modes *)

(** X12. On an open session whose mode array has its slot,
    [setMode POWER_EFFICIENCY b] succeeds, stores [b] in the slot, keeps
    the length of the array and the whole descriptor, and sends nothing to
    the session manager; done twice, the second value is the one that
    stays.  Any other mode is refused with IllegalArgument and the array is
    left as it was. *)
Theorem setMode_stores_flag (env env' : Env) (s : PowerHintSession)
    (b b' : bool) :
  mSessionClosed s = false ->
  (0 < List.length (mModes s))%nat ->
  exists s1 ev1 s2 ev2,
    setMode env POWER_EFFICIENCY b s = Some (ok, s1, ev1) /\
    mModes s1 !! 0%nat = Some b /\
    List.length (mModes s1) = List.length (mModes s) /\
    mDescriptor s1 = mDescriptor s /\
    manager_calls ev1 = [] /\
    setMode env' POWER_EFFICIENCY b' s1 = Some (ok, s2, ev2) /\
    mModes s2 !! 0%nat = Some b' /\
    (forall raw,
        setMode env (SessionMode_other raw) b s
        = Some (EX_ILLEGAL_ARGUMENT, s, [ALOGE "Error: mode is invalid"])).
Proof.
  intros Ho Hlen.
  unfold setMode. rewrite !bind_unfold. cbn [get]. rewrite Ho.
  eexists _, _, _, _.
  split; [reflexivity|].
  split; [apply list_lookup_insert_eq; exact Hlen|].
  split; [apply length_insert|].
  split; [reflexivity|].
  split; [reflexivity|].
  split; [rewrite !bind_unfold; cbn [get]; session_simpl; rewrite Ho;
          reflexivity|].
  split; [|reflexivity].
  session_simpl. apply list_lookup_insert_eq. rewrite length_insert. exact Hlen.
Qed.

Lemma setMode_stores_flag_witness :
  exists s1 ev1 s2 ev2,
    setMode sample_env POWER_EFFICIENCY true sample_session
      = Some (ok, s1, ev1) /\
    mModes s1 !! 0%nat = Some true /\
    List.length (mModes s1) = List.length (mModes sample_session) /\
    mDescriptor s1 = mDescriptor sample_session /\
    manager_calls ev1 = [] /\
    setMode sample_env POWER_EFFICIENCY false s1 = Some (ok, s2, ev2) /\
    mModes s2 !! 0%nat = Some false /\
    (forall raw,
        setMode sample_env (SessionMode_other raw) true sample_session
        = Some (EX_ILLEGAL_ARGUMENT, sample_session,
                [ALOGE "Error: mode is invalid"])).
Proof.
  apply (setMode_stores_flag sample_env sample_env sample_session true false).
  - reflexivity.
  - vm_compute. lia.
Defined.

(** ** Pause followed by resume *)

Lemma set_is_active_back (s : PowerHintSession) :
  is_active (mDescriptor s) = true ->
  with_descriptor (set_is_active true)
    (with_descriptor (set_is_active false) s) = s.
Proof.
  destruct s as [sid [] t c h l m]. cbn. intros ->. reflexivity.
Qed.

(** X13. On an open, active session a pause followed by a resume both
    succeed and give back the very session that was paused, set point and
    PID state included; the session manager sees one pause and one
    resume. *)
Theorem pause_resume_round_trip (env env' : Env) (s : PowerHintSession) :
  mSessionClosed s = false -> is_active (mDescriptor s) = true ->
  exists ev,
    run_calls [(env, call_pause); (env', call_resume)] s
      = Some ([ok; ok], s, ev) /\
    manager_calls ev = [mgr_pause (mSessionId s); mgr_resume (mSessionId s)].
Proof.
  intros Ho Ha.
  pose proof (pause_active env s Ho Ha) as E1.
  pose proof (resume_paused env' (with_descriptor (set_is_active false) s)
                Ho eq_refl) as E2.
  rewrite (set_is_active_back s Ha) in E2. session_simpl_all.
  eexists. split.
  - eapply run_calls_cons; [exact E1|].
    eapply run_calls_cons; [exact E2 | reflexivity].
  - reflexivity.
Qed.

Lemma pause_resume_round_trip_witness :
  exists ev,
    run_calls [(sample_env, call_pause); (sample_env, call_resume)]
      sample_session = Some ([ok; ok], sample_session, ev) /\
    manager_calls ev = [mgr_pause 1; mgr_resume 1].
Proof.
  apply (pause_resume_round_trip sample_env sample_env sample_session);
    reflexivity.
Defined.

(** ** Target updates *)

(** X14. [updateTargetWorkDuration] on an open session: a duration of 0 or
    less is refused with IllegalArgument, changes nothing and sends
    nothing; a positive duration whose scaled value fits an [int64_t]
    succeeds, the target of the descriptor becomes the scaled value, every
    other field of the session stays, the session manager is told the
    scaled target for the default vote, and the target is traced as an
    [int32_t]. *)
Theorem updateTargetWorkDuration_outcome (env : Env) (d : Z)
    (s : PowerHintSession) :
  mSessionClosed s = false ->
  (d <= 0 ->
     exists ev,
       updateTargetWorkDuration env d s = Some (EX_ILLEGAL_ARGUMENT, s, ev) /\
       manager_calls ev = []) /\
  (0 < d ->
     forall scaled,
       Double.to_int64
         (Double.mul (Double.of_int d) (mTargetTimeFactor (profile env)))
       = Some scaled ->
       exists s' ev,
         updateTargetWorkDuration env d s = Some (ok, s', ev) /\
         targetNs (mDescriptor s') = scaled /\
         s' = with_descriptor (set_targetNs scaled) s /\
         pidSetPoint (mDescriptor s') = pidSetPoint (mDescriptor s) /\
         is_active (mDescriptor s') = is_active (mDescriptor s) /\
         update_count (mDescriptor s') = update_count (mDescriptor s) /\
         integral_error (mDescriptor s') = integral_error (mDescriptor s) /\
         previous_error (mDescriptor s') = previous_error (mDescriptor s) /\
         mSessionClosed s' = false /\
         mLastUpdatedTime s' = mLastUpdatedTime s /\
         ev = [PSManager (mgr_updateTargetWorkDuration (mSessionId s)
                            ADPF_VOTE_DEFAULT (targetNs (mDescriptor s')));
               ATRACE_INT trace_target
                 (Int.to_int32 (targetNs (mDescriptor s')))]).
Proof.
  intros Ho. unfold updateTargetWorkDuration.
  rewrite bind_unfold. cbn [get]. rewrite Ho. split.
  - intros Hd. destruct (Z.leb_spec d 0); [|lia].
    eexists. split; reflexivity.
  - intros Hd scaled Hs. destruct (Z.leb_spec d 0); [lia|].
    rewrite bind_unfold, Hs.
    exists (with_descriptor (set_targetNs scaled) s). eexists.
    split; [reflexivity|]. session_simpl.
    repeat split; first [reflexivity | exact Ho].
Qed.

Lemma updateTargetWorkDuration_outcome_witness :
  exists s' ev,
    updateTargetWorkDuration half_factor_env 16666666 sample_session
    = Some (ok, s', ev) /\
    targetNs (mDescriptor s') = 8333333 /\
    pidSetPoint (mDescriptor s') = pidSetPoint (mDescriptor sample_session) /\
    manager_calls ev
    = [mgr_updateTargetWorkDuration 1 ADPF_VOTE_DEFAULT 8333333].
Proof.
  destruct (updateTargetWorkDuration_outcome half_factor_env 16666666
              sample_session eq_refl) as [_ H].
  destruct (H ltac:(lia) 8333333 ltac:(vm_compute; reflexivity))
    as (s' & ev & E & Ht & _ & Hp & _ & _ & _ & _ & _ & _ & Hev).
  exists s', ev. split; [exact E|]. split; [exact Ht|]. split; [exact Hp|].
  rewrite Hev, Ht. reflexivity.
Defined.

(** ** Staleness *)

(** X15. After a successful report, hint or mode change made at time [t],
    the session is stale exactly from [t] plus the stale-time window on
    (the sum taken within [int64_t]); in particular it is not stale at the
    time of the call when the window is positive. *)
Theorem stale_exactly_after_window (env env' : Env) (c : Call)
    (s s' : PowerHintSession) (ev : list Event) (d : Z) :
  refreshes_timestamp c = true ->
  invoke env c s = Some (ok, s', ev) ->
  stale_duration (profile env') (targetNs (mDescriptor s')) = Some d ->
  Int.is_int64 (now env + d) ->
  isTimeout env' s' = Some (now env + d <=? now env', s', []) /\
  (0 < d -> now env' = now env -> status_of (isTimeout env' s') = Some false).
Proof.
  intros Hc H Hd Hr.
  assert (Ht : mLastUpdatedTime s' = now env).
  { refine (wp_elim (invoke env c)
              (fun st s2 _ => st = ok -> mLastUpdatedTime s2 = now env)
              s _ _ _ _ H eq_refl).
    destruct c; try discriminate Hc; cbn [invoke]; unfold_calls;
      wp_go; session_simpl; intros; try discriminate; reflexivity. }
  assert (E : isTimeout env' s' = Some (now env + d <=? now env', s', [])).
  { unfold isTimeout. rewrite bind_unfold. cbn [get].
    rewrite bind_unfold, Hd. cbn. rewrite Ht, to_int64_id by exact Hr.
    reflexivity. }
  split; [exact E|].
  intros Hpos Hnow. rewrite E, Hnow. cbn.
  destruct (Z.leb_spec (now env + d) (now env)); [lia | reflexivity].
Qed.

Lemma stale_exactly_after_window_witness :
  status_of
    (isTimeout sample_env
       (default sample_session
          (session_of (setMode sample_env POWER_EFFICIENCY true
                         sample_session))))
  = Some false.
Proof.
  refine (proj2 (stale_exactly_after_window sample_env sample_env
                   (call_setMode POWER_EFFICIENCY true) sample_session _
                   (events_of (setMode sample_env POWER_EFFICIENCY true
                                 sample_session))
                   333333320 _ _ _ _) _ _).
  - reflexivity.
  - vm_compute. reflexivity.
  - vm_compute. reflexivity.
  - vm_compute. split; congruence.
  - lia.
  - reflexivity.
Defined.

(** ** The whole life of a session *)

Lemma newPowerHintSession_run (env : Env) (sid tg u : Z) (tids : list Z)
    (dur : Z) (s : PowerHintSession) (ev : list Event) :
  newPowerHintSession env sid tg u tids dur = Some (s, ev) ->
  s = set_mLastUpdatedTime (now env) (fresh_session sid tg u dur) /\
  exists half,
    half_stale_duration (profile env) dur = Some half /\
    manager_calls ev =
      [addPowerSession sid tids;
       voteSet sid ADPF_CPU_LOAD_RESET (mUclampMinHigh (profile env))
         (kUclampMax env) (now env) half;
       voteSet sid ADPF_VOTE_DEFAULT (mUclampMinInit (profile env))
         (kUclampMax env) (now env) dur].
Proof.
  unfold newPowerHintSession.
  destruct (construct env tids (fresh_session sid tg u dur))
    as [[[[] s1] ev1]|] eqn:E; [|discriminate].
  intros [= <- <-].
  refine (wp_elim (construct env tids)
            (fun _ s2 ev2 =>
               s2 = set_mLastUpdatedTime (now env)
                      (fresh_session sid tg u dur) /\
               exists half,
                 half_stale_duration (profile env) dur = Some half /\
                 manager_calls ev2 = _) _ _ _ _ _ E).
  unfold construct. wp_go. session_simpl_all.
  split; [reflexivity|]. eexists. split; [eassumption|reflexivity].
Qed.

Lemma recognized_hint_value (hint : SessionHint) :
  (forall raw, hint <> SessionHint_other raw) ->
  -1 <= Int.to_int32 (SessionHint_value hint) <= 3.
Proof.
  destruct hint; intros H;
    [| | | |exfalso; eapply H; reflexivity];
    vm_compute; split; discriminate.
Qed.

Lemma invoke_keeps_invariant (env : Env) (c : Call)
    (s s' : PowerHintSession) (st : ScopedAStatus) (ev : list Event) :
  session_invariant s ->
  invoke env c s = Some (st, s', ev) ->
  session_invariant s'.
Proof.
  intros (Hci & Hid & Hlen & Hh) H. unfold closed_is_inactive in Hci.
  refine (wp_elim (invoke env c) (fun _ s2 _ => session_invariant s2)
            s _ _ _ _ H).
  unfold session_invariant, closed_is_inactive.
  by_cases_on_call c;
    repeat split; try assumption; try reflexivity; try lia;
    try (rewrite length_insert; assumption);
    try (intros; congruence);
    try (apply recognized_hint_value; discriminate);
    try (intros Hc; specialize (Hci Hc); congruence);
    try (intros _; apply Hci; reflexivity).
Qed.

Lemma run_calls_keep_invariant (cs : list (Env * Call)) :
  forall s sts s' ev,
    session_invariant s ->
    run_calls cs s = Some (sts, s', ev) ->
    session_invariant s'.
Proof.
  induction cs as [|[env c] cs IH]; intros s sts s' ev Hs H.
  - injection H as _ <- _. exact Hs.
  - cbn [run_calls] in H. rewrite bind_unfold in H.
    destruct (invoke env c s) as [[[st s1] ev1]|] eqn:E1; [|discriminate H].
    rewrite bind_unfold in H.
    destruct (run_calls cs s1) as [[[sts1 s2] ev2]|] eqn:E2; [|discriminate H].
    injection H as _ <- _.
    eapply IH; [|exact E2]. eapply invoke_keeps_invariant; eassumption.
Qed.

(** X16. Through its whole life, from the constructor through any sequence
    of calls, a session that is closed is inactive, the controller and the
    descriptor agree on the session id, the mode array keeps its one slot,
    and the last hint recorded is none or one of the four known hints. *)
Theorem lifetime_invariant (env : Env) (sid tg u : Z) (tids : list Z)
    (dur : Z) (cs : list (Env * Call)) (s0 s : PowerHintSession)
    (ev0 ev : list Event) (sts : list ScopedAStatus) :
  newPowerHintSession env sid tg u tids dur = Some (s0, ev0) ->
  run_calls cs s0 = Some (sts, s, ev) ->
  session_invariant s.
Proof.
  intros H0 H.
  destruct (newPowerHintSession_run _ _ _ _ _ _ _ _ H0) as (-> & _).
  eapply run_calls_keep_invariant; [|exact H].
  repeat split; cbn; try lia; try reflexivity. discriminate.
Qed.

Lemma removals_app (a b : list Event) :
  removals (a ++ b) = (removals a + removals b)%nat.
Proof.
  unfold removals, manager_calls.
  rewrite omap_app, List.filter_app, length_app. reflexivity.
Qed.

Lemma invoke_removals (env : Env) (c : Call)
    (s s' : PowerHintSession) (st : ScopedAStatus) (ev : list Event) :
  invoke env c s = Some (st, s', ev) ->
  (mSessionClosed s = true ->
     mSessionClosed s' = true /\ removals ev = 0%nat) /\
  (mSessionClosed s = false ->
     removals ev = if mSessionClosed s' then 1%nat else 0%nat).
Proof.
  intros H.
  refine (wp_elim (invoke env c)
            (fun _ s2 ev2 =>
               (mSessionClosed s = true ->
                  mSessionClosed s2 = true /\ removals ev2 = 0%nat) /\
               (mSessionClosed s = false ->
                  removals ev2 = if mSessionClosed s2 then 1%nat else 0%nat))
            s _ _ _ _ H).
  by_cases_on_call c;
    (split; intros Hc; try discriminate Hc);
    try match goal with
        | E : mSessionClosed s = _ |- _ => rewrite ?E
        end;
    try (split; [reflexivity|]); reflexivity.
Qed.

Lemma run_calls_removals (cs : list (Env * Call)) :
  forall s sts s' ev,
    run_calls cs s = Some (sts, s', ev) ->
    (mSessionClosed s = true ->
       mSessionClosed s' = true /\ removals ev = 0%nat) /\
    (mSessionClosed s = false ->
       removals ev = if mSessionClosed s' then 1%nat else 0%nat).
Proof.
  induction cs as [|[env c] cs IH]; intros s sts s' ev H.
  - injection H as _ <- <-. split; intros Hc; [auto|]. rewrite Hc. reflexivity.
  - cbn [run_calls] in H. rewrite bind_unfold in H.
    destruct (invoke env c s) as [[[st s1] ev1]|] eqn:E1; [|discriminate H].
    rewrite bind_unfold in H.
    destruct (run_calls cs s1) as [[[sts1 s2] ev2]|] eqn:E2; [|discriminate H].
    injection H as _ <- <-.
    destruct (invoke_removals _ _ _ _ _ _ E1) as (C1 & O1).
    destruct (IH _ _ _ _ E2) as (C2 & O2).
    rewrite !removals_app. change (removals []) with 0%nat.
    split; intros Hc.
    + destruct (C1 Hc) as (Hc1 & ->). destruct (C2 Hc1) as (Hc2 & ->).
      split; [exact Hc2 | reflexivity].
    + rewrite (O1 Hc). destruct (mSessionClosed s1) eqn:Hc1.
      * destruct (C2 eq_refl) as (-> & ->). reflexivity.
      * rewrite (O2 eq_refl). destruct (mSessionClosed s2); reflexivity.
Qed.

Lemma destructor_run (env : Env) (s : PowerHintSession) :
  exists s2 ev2,
    PowerHintSession_destructor env s = Some (tt, s2, ev2) /\
    mSessionClosed s2 = true /\
    removals ev2 = if mSessionClosed s then 0%nat else 1%nat.
Proof.
  unfold PowerHintSession_destructor, close.
  rewrite !bind_unfold. cbn [get].
  destruct (mSessionClosed s) eqn:Hc.
  - eexists _, _. split; [reflexivity|]. split; [exact Hc | reflexivity].
  - eexists _, _. split; [reflexivity|]. split; reflexivity.
Qed.

(** X17. A session is removed from the session manager exactly once in its
    life: the constructor and the calls made on the open session never
    remove it, the first [close] removes it, no later call does, and the
    destructor removes it only when no [close] has succeeded before. *)
Theorem removed_exactly_once (env env' : Env) (sid tg u : Z)
    (tids : list Z) (dur : Z) (cs : list (Env * Call))
    (s0 s : PowerHintSession) (ev0 ev : list Event)
    (sts : list ScopedAStatus) :
  newPowerHintSession env sid tg u tids dur = Some (s0, ev0) ->
  run_calls cs s0 = Some (sts, s, ev) ->
  removals (ev0 ++ ev) = (if mSessionClosed s then 1%nat else 0%nat) /\
  exists s2 ev2,
    PowerHintSession_destructor env' s = Some (tt, s2, ev2) /\
    mSessionClosed s2 = true /\
    removals (ev0 ++ ev ++ ev2) = 1%nat.
Proof.
  intros H0 H.
  destruct (newPowerHintSession_run _ _ _ _ _ _ _ _ H0)
    as (-> & half & _ & Hm).
  assert (R0 : removals ev0 = 0%nat).
  { unfold removals. rewrite Hm. reflexivity. }
  destruct (run_calls_removals _ _ _ _ _ H) as (_ & O).
  specialize (O eq_refl).
  destruct (destructor_run env' s) as (s2 & ev2 & E2 & Hc2 & R2).
  split; [rewrite removals_app, R0, O; reflexivity|].
  exists s2, ev2. split; [exact E2|]. split; [exact Hc2|].
  rewrite !removals_app, R0, O, R2. destruct (mSessionClosed s); reflexivity.
Qed.

(** X18. The constructor stores the duration it is given as the target,
    without the target-time factor, and leaves the set point at 0.  A
    session constructed with a duration of 0 refuses every report and
    every hint with IllegalState, as not yet targeted; one constructed
    with another duration is targeted from the start: no report on it is
    refused as not yet targeted, with no target update made. *)
Theorem new_session_target (env : Env) (sid tg u : Z) (tids : list Z)
    (dur : Z) (s0 : PowerHintSession) (ev0 : list Event) :
  newPowerHintSession env sid tg u tids dur = Some (s0, ev0) ->
  targetNs (mDescriptor s0) = dur /\
  pidSetPoint (mDescriptor s0) = 0 /\
  (dur = 0 ->
     forall env' ds hint,
       reportActualWorkDuration env' ds s0
         = Some (EX_ILLEGAL_STATE, s0, [not_yet_targeted]) /\
       sendHint env' hint s0
         = Some (EX_ILLEGAL_STATE, s0, [not_yet_targeted])) /\
  (dur <> 0 ->
     forall env' ds,
       ~ fails_not_yet_targeted (reportActualWorkDuration env' ds s0)).
Proof.
  intros H0.
  destruct (newPowerHintSession_run _ _ _ _ _ _ _ _ H0) as (-> & _).
  split; [reflexivity|]. split; [reflexivity|]. split.
  - intros -> env' ds hint. split.
    + apply report_untargeted; reflexivity.
    + reflexivity.
  - intros Hd env' ds. apply report_targeted. exact Hd.
Qed.

(** ** The accumulators of the PID loop in closed form *)

Lemma to_int64_add_l (a b : Z) :
  Int.to_int64 (Int.to_int64 a + b) = Int.to_int64 (a + b).
Proof.
  unfold Int.to_int64, Int.to_signed. f_equal.
  replace ((a + 2 ^ (64 - 1)) mod 2 ^ 64 - 2 ^ (64 - 1) + b + 2 ^ (64 - 1))
    with ((a + 2 ^ (64 - 1)) mod 2 ^ 64 + b) by lia.
  rewrite Zplus_mod_idemp_l. f_equal. lia.
Qed.

Lemma to_int64_add_r (a b : Z) :
  Int.to_int64 (a + Int.to_int64 b) = Int.to_int64 (a + b).
Proof. rewrite Z.add_comm, to_int64_add_l. f_equal. lia. Qed.

Lemma to_int64_is_int64 (a : Z) : Int.is_int64 (Int.to_int64 a).
Proof.
  unfold Int.is_int64, Int.INT64_MIN, Int.INT64_MAX, Int.to_int64,
    Int.to_signed.
  pose proof (Z.mod_pos_bound (a + 2 ^ (64 - 1)) (2 ^ 64) ltac:(lia)).
  change (2 ^ (64 - 1)) with (2 ^ 63) in *.
  change (2 ^ 64) with (2 * 2 ^ 63) in *. lia.
Qed.

Lemma last_drop_lt {A} (l : list A) (k : nat) :
  (k < List.length l)%nat -> last (drop k l) = last l.
Proof.
  intros Hk. rewrite !last_lookup, lookup_drop, length_drop.
  f_equal. lia.
Qed.

(** The first index of the loop and what is left of the samples there. *)
Lemma loop_start_facts (cfg : AdpfConfig) (ds : list WorkDuration) :
  wf_profile cfg -> wf_durations ds -> ds <> [] ->
  let n := Z.of_nat (List.length ds) in
  let p := window_start (mSamplingWindowP cfg) n in
  let i := window_start (mSamplingWindowI cfg) n in
  let w := window_start (mSamplingWindowD cfg) n in
  let first := Z.min p (Z.min i w) in
  0 <= first /\ first <= p <= n - 1 /\ first <= w <= n - 1 /\
  (Z.to_nat first < List.length ds)%nat.
Proof.
  intros (HP & HI & HD) Hds Hne n p i w first.
  assert (Hn : 0 < n <= Int.INT64_MAX).
  { unfold wf_durations in Hds. subst n. destruct ds; [congruence|].
    cbn [List.length] in *. lia. }
  pose proof (window_start_range _ _ HP Hn).
  pose proof (window_start_range _ _ HI Hn).
  pose proof (window_start_range _ _ HD Hn).
  subst first p i w n. lia.
Qed.

Lemma pid_loop_previous_error (cfg : AdpfConfig)
    (target dt p_start i_start d_start : Z) (ds : list WorkDuration) :
  forall i acc a,
    last ds = Some a ->
    acc_previous_error
      (pid_loop cfg target dt p_start i_start d_start i ds acc)
    = sample_error target a.
Proof.
  induction ds as [|a0 [|b rest] IH]; intros i acc a Hl.
  - discriminate Hl.
  - injection Hl as <-. reflexivity.
  - change (pid_loop cfg target dt p_start i_start d_start i
              (a0 :: b :: rest) acc)
      with (pid_loop cfg target dt p_start i_start d_start (i + 1) (b :: rest)
              (pid_step cfg target dt p_start i_start d_start i
                 (durationNanos a0) acc)).
    apply IH. exact Hl.
Qed.

Lemma pid_accumulate_previous_error (cfg : AdpfConfig) (d : AppHintDesc)
    (ds : list WorkDuration) (a : WorkDuration) :
  wf_profile cfg -> wf_durations ds ->
  last ds = Some a ->
  acc_previous_error (pid_accumulate cfg d ds) = sample_error (targetNs d) a.
Proof.
  intros Hwf Hds Hl.
  assert (Hne : ds <> []) by (intros ->; discriminate Hl).
  destruct (loop_start_facts cfg ds Hwf Hds Hne) as (_ & _ & _ & Hk).
  unfold pid_accumulate. apply pid_loop_previous_error.
  rewrite last_drop_lt by exact Hk. exact Hl.
Qed.

(** X19. After a successful report under PID control the descriptor's
    previous error is the error of the last reported duration against the
    target, in units of 100 microseconds, whatever the window sizes are:
    it is what the next report's derivative starts from. *)
Theorem report_keeps_last_error (env : Env) (ds : list WorkDuration)
    (s s' : PowerHintSession) (ev : list Event) (a : WorkDuration) :
  wf_profile (profile env) -> wf_durations ds ->
  mPidOn (profile env) = true ->
  last ds = Some a ->
  reportActualWorkDuration env ds s = Some (ok, s', ev) ->
  previous_error (mDescriptor s')
  = ns_to_100us (Int.to_int64 (durationNanos a - targetNs (mDescriptor s))).
Proof.
  intros Hwf Hds Hon Hl H.
  destruct (report_success_passed_guards _ _ _ _ _ H) as (Ho & Ht & Hne & Ha).
  refine (wp_elim (reportActualWorkDuration env ds)
            (fun _ s2 _ =>
               previous_error (mDescriptor s2)
               = sample_error (targetNs (mDescriptor s)) a) s _ _ _ _ H).
  report_wp Ho Ht Hne Ha. rewrite Hon. cbn [negb].
  wp_go; session_simpl;
    rewrite (pid_accumulate_previous_error _ _ _ a Hwf Hds Hl);
    reflexivity.
Qed.

(** Inside the proportional window every sample adds its error. *)
Lemma pid_loop_err_sum (cfg : AdpfConfig)
    (target dt p_start i_start d_start : Z) (ds : list WorkDuration) :
  forall i acc,
    Int.is_int64 (acc_err_sum acc) ->
    acc_err_sum (pid_loop cfg target dt p_start i_start d_start i ds acc)
    = Int.to_int64
        (acc_err_sum acc
         + sum_errors target (drop (Z.to_nat (p_start - i)) ds)).
Proof.
  induction ds as [|a rest IH]; intros i acc Hr.
  - cbn [pid_loop]. rewrite drop_nil. cbn [sum_errors foldr].
    rewrite Z.add_0_r. symmetry. now apply to_int64_id.
  - cbn [pid_loop]. rewrite IH.
    + cbn [pid_step acc_err_sum].
      destruct (Z.leb_spec p_start i) as [Hin|Hout].
      * replace (Z.to_nat (p_start - (i + 1))) with 0%nat by lia.
        replace (Z.to_nat (p_start - i)) with 0%nat by lia.
        rewrite to_int64_add_l. f_equal.
        unfold sum_errors, sample_error. rewrite drop_0. cbn [drop foldr]. lia.
      * replace (Z.to_nat (p_start - i))
          with (S (Z.to_nat (p_start - (i + 1)))) by lia.
        reflexivity.
    + cbn [pid_step acc_err_sum].
      destruct (p_start <=? i); [apply to_int64_is_int64 | exact Hr].
Qed.

(** X20. The proportional accumulator that the PID loop hands to the
    output stage is the sum, within [int64_t], of the errors of the samples
    from the start of the proportional window to the last one: of all
    samples for a window size of 0, of the last [W] for a window size
    [W]. *)
Theorem proportional_sum_over_window (cfg : AdpfConfig) (d : AppHintDesc)
    (ds : list WorkDuration) :
  wf_profile cfg -> wf_durations ds -> ds <> [] ->
  let n := Z.of_nat (List.length ds) in
  let W := mSamplingWindowP cfg in
  acc_err_sum (pid_accumulate cfg d ds)
  = Int.to_int64
      (sum_errors (targetNs d)
         (drop (Z.to_nat (if W =? 0 then 0 else Z.max 0 (n - W))) ds)).
Proof.
  intros Hwf Hds Hne n W.
  destruct (loop_start_facts cfg ds Hwf Hds Hne) as (H0 & (Hp & _) & _ & _).
  assert (Hn : 0 <= n <= Int.INT64_MAX)
    by (unfold wf_durations in Hds; subst n; lia).
  pose proof (window_start_spec W n (proj1 Hwf) Hn) as Hs.
  unfold spec_window_start in Hs. rewrite <- Hs. subst W n.
  unfold pid_accumulate.
  set (p := window_start (mSamplingWindowP cfg) (Z.of_nat (List.length ds))) in *.
  set (first := Z.min p _) in *.
  rewrite pid_loop_err_sum.
  - cbn [acc_err_sum]. rewrite Z.add_0_l, drop_drop.
    replace (Z.to_nat first + Z.to_nat (p - first))%nat with (Z.to_nat p)
      by lia.
    reflexivity.
  - cbn. unfold Int.is_int64. vm_compute. split; congruence.
Qed.

Lemma pid_loop_derivative_inside (cfg : AdpfConfig)
    (target dt p_start i_start d_start : Z) (ds : list WorkDuration) :
  forall i acc a,
    d_start <= i ->
    last ds = Some a ->
    acc_derivative_sum
      (pid_loop cfg target dt p_start i_start d_start i ds acc)
    = Int.to_int64
        (acc_derivative_sum acc + sample_error target a
         - acc_previous_error acc).
Proof.
  induction ds as [|a0 [|b rest] IH]; intros i acc a Hi Hl.
  - discriminate Hl.
  - injection Hl as <-. cbn [pid_loop pid_step acc_derivative_sum].
    destruct (Z.leb_spec d_start i); [|lia].
    rewrite to_int64_add_r. f_equal. unfold sample_error. lia.
  - change (pid_loop cfg target dt p_start i_start d_start i
              (a0 :: b :: rest) acc)
      with (pid_loop cfg target dt p_start i_start d_start (i + 1) (b :: rest)
              (pid_step cfg target dt p_start i_start d_start i
                 (durationNanos a0) acc)).
    rewrite (IH (i + 1) _ a) by (lia || exact Hl).
    cbn [pid_step acc_derivative_sum acc_previous_error].
    destruct (Z.leb_spec d_start i); [|lia].
    fold (sample_error target a0).
    rewrite <- Z.add_sub_assoc, to_int64_add_l.
    rewrite <- Z.add_assoc, (Z.add_comm (acc_derivative_sum acc)),
      <- Z.add_assoc, to_int64_add_l.
    f_equal. lia.
Qed.

Lemma pid_loop_derivative_before (cfg : AdpfConfig)
    (target dt p_start i_start d_start : Z) (ds : list WorkDuration) :
  forall i acc a_ref a,
    i < d_start ->
    acc_derivative_sum acc = 0 ->
    ds !! Z.to_nat (d_start - 1 - i) = Some a_ref ->
    last ds = Some a ->
    (Z.to_nat (d_start - i) < List.length ds)%nat ->
    acc_derivative_sum
      (pid_loop cfg target dt p_start i_start d_start i ds acc)
    = Int.to_int64 (sample_error target a - sample_error target a_ref).
Proof.
  induction ds as [|a0 rest IH]; intros i acc a_ref a Hi H0 Href Hl Hlen.
  - discriminate Hl.
  - destruct rest as [|b rest]; [cbn [List.length] in Hlen; lia|].
    change (pid_loop cfg target dt p_start i_start d_start i
              (a0 :: b :: rest) acc)
      with (pid_loop cfg target dt p_start i_start d_start (i + 1) (b :: rest)
              (pid_step cfg target dt p_start i_start d_start i
                 (durationNanos a0) acc)).
    assert (Hl' : last (b :: rest) = Some a) by exact Hl.
    assert (Hstep : acc_derivative_sum
                      (pid_step cfg target dt p_start i_start d_start i
                         (durationNanos a0) acc) = 0).
    { cbn [pid_step acc_derivative_sum].
      destruct (Z.leb_spec d_start i); [lia | exact H0]. }
    destruct (Z.eq_dec (i + 1) d_start) as [E|NE].
    + rewrite (pid_loop_derivative_inside _ _ _ _ _ _ _ _ _ a) by (lia || exact Hl').
      rewrite Hstep. cbn [pid_step acc_previous_error].
      replace (Z.to_nat (d_start - 1 - i)) with 0%nat in Href by lia.
      injection Href as <-. f_equal; try (unfold sample_error; lia).
    + apply IH; try assumption; try lia.
      * replace (Z.to_nat (d_start - 1 - i))
          with (S (Z.to_nat (d_start - 1 - (i + 1)))) in Href by lia.
        exact Href.
      * cbn [List.length] in Hlen |- *. lia.
Qed.

Lemma sample_error_small (target : Z) (a : WorkDuration) :
  - 2 ^ 53 < sample_error target a < 2 ^ 53.
Proof.
  unfold sample_error. apply ns_to_100us_small, to_int64_is_int64.
Qed.

(** X21. The derivative accumulator that the PID loop hands to the output
    stage is the change of the error across the derivative window.  When
    the window starts inside the loop, it is the error of the last sample
    minus the error of the sample just before the window, exactly, so it
    is positive exactly when the error grew.  When the window starts the
    loop, it is the error of the last sample minus the previous error that
    the descriptor carried from the report before, within [int64_t]. *)
Theorem derivative_is_change_of_error (cfg : AdpfConfig) (d : AppHintDesc)
    (ds : list WorkDuration) (a : WorkDuration) :
  wf_profile cfg -> wf_durations ds ->
  last ds = Some a ->
  forall n p_start i_start d_start first,
    n = Z.of_nat (List.length ds) ->
    p_start = spec_window_start (mSamplingWindowP cfg) n ->
    i_start = spec_window_start (mSamplingWindowI cfg) n ->
    d_start = spec_window_start (mSamplingWindowD cfg) n ->
    first = Z.min p_start (Z.min i_start d_start) ->
    (first < d_start ->
       forall a_ref,
         ds !! Z.to_nat (d_start - 1) = Some a_ref ->
         acc_derivative_sum (pid_accumulate cfg d ds)
         = sample_error (targetNs d) a - sample_error (targetNs d) a_ref /\
         (0 < acc_derivative_sum (pid_accumulate cfg d ds) <->
          sample_error (targetNs d) a_ref < sample_error (targetNs d) a)) /\
    (first = d_start ->
       acc_derivative_sum (pid_accumulate cfg d ds)
       = Int.to_int64 (sample_error (targetNs d) a - previous_error d)).
Proof.
  intros Hwf Hds Hl n p_start i_start d_start first -> -> -> -> ->.
  assert (Hne : ds <> []) by (intros ->; discriminate Hl).
  destruct (loop_start_facts cfg ds Hwf Hds Hne)
    as (H0 & _ & (Hfd & Hdn) & Hk).
  assert (Hn : 0 <= Z.of_nat (List.length ds) <= Int.INT64_MAX)
    by (unfold wf_durations in Hds; lia).
  destruct Hwf as (HP & HI & HD).
  unfold pid_accumulate.
  rewrite <- !window_start_spec by assumption.
  set (n := Z.of_nat (List.length ds)) in *.
  set (p := window_start (mSamplingWindowP cfg) n) in *.
  set (i := window_start (mSamplingWindowI cfg) n) in *.
  set (w := window_start (mSamplingWindowD cfg) n) in *.
  set (first := Z.min p (Z.min i w)) in *.
  assert (Hl' : last (drop (Z.to_nat first) ds) = Some a)
    by (rewrite last_drop_lt by exact Hk; exact Hl).
  split.
  - intros Hlt a_ref Href.
    assert (E : acc_derivative_sum
                  (pid_loop cfg (targetNs d) (ns_to_100us (targetNs d))
                     p i w first (drop (Z.to_nat first) ds)
                     (mkPidAcc 0 0 (integral_error d) (previous_error d)))
                = sample_error (targetNs d) a
                  - sample_error (targetNs d) a_ref).
    { rewrite (pid_loop_derivative_before _ _ _ _ _ _ _ _ _ a_ref a);
        try assumption; try reflexivity.
      - apply to_int64_id.
        pose proof (sample_error_small (targetNs d) a).
        pose proof (sample_error_small (targetNs d) a_ref).
        unfold Int.is_int64, Int.INT64_MIN, Int.INT64_MAX.
        change (2 ^ 53) with 9007199254740992 in *.
        change (2 ^ 63) with 9223372036854775808. lia.
      - rewrite lookup_drop. rewrite <- Href. f_equal. lia.
      - rewrite length_drop. subst n. lia. }
    rewrite E. split; [reflexivity | lia].
  - intros Heq.
    rewrite (pid_loop_derivative_inside _ _ _ _ _ _ _ _ _ a)
      by (lia || exact Hl').
    cbn [acc_derivative_sum acc_previous_error]. f_equal.
Qed.

(** ** Instances on the sample runs *)

Ltac by_run := vm_compute; reflexivity.

Lemma report_set_point_within_bounds_witness :
  2 <= pidSetPoint
         (mDescriptor
            (default sample_session
               (session_of (reportActualWorkDuration windowed_env late_frames
                              sample_session))))
    <= 480.
Proof.
  refine (report_set_point_within_bounds windowed_env late_frames
            sample_session _
            (events_of (reportActualWorkDuration windowed_env late_frames
                          sample_session)) _ _ _ _).
  - vm_compute. congruence.
  - vm_compute. congruence.
  - vm_compute. congruence.
  - by_run.
Defined.

Lemma report_with_pid_off_witness :
  pidSetPoint
    (mDescriptor
       (default sample_session
          (session_of (reportActualWorkDuration pid_off_env late_frames
                         sample_session))))
  = 480.
Proof.
  refine (proj1 (report_with_pid_off pid_off_env late_frames sample_session _
                   (events_of (reportActualWorkDuration pid_off_env
                                 late_frames sample_session)) _ _)).
  - reflexivity.
  - by_run.
Defined.

Lemma report_success_bookkeeping_witness :
  update_count
    (mDescriptor
       (default sample_session
          (session_of (reportActualWorkDuration windowed_env late_frames
                         sample_session))))
  = 1.
Proof.
  refine (proj1 (proj2 (report_success_bookkeeping windowed_env late_frames
                          sample_session _
                          (events_of (reportActualWorkDuration windowed_env
                                        late_frames sample_session)) _))).
  by_run.
Defined.

Lemma report_manager_calls_witness :
  manager_calls
    (events_of (reportActualWorkDuration later_env late_frames sample_session))
  = [updateUniversalBoostMode; disableBoosts 1;
     voteSet 1 ADPF_VOTE_DEFAULT 349 1024 2000001000 333333320].
Proof.
  refine (report_manager_calls later_env late_frames sample_session
            (default sample_session
               (session_of (reportActualWorkDuration later_env late_frames
                              sample_session)))
            _ 333333320 _ _).
  - by_run.
  - by_run.
Defined.

Lemma report_first_frame_hint_witness :
  hints_done
    (events_of (reportActualWorkDuration later_env late_frames sample_session))
  = ["ADPF_FIRST_FRAME"].
Proof.
  refine (report_first_frame_hint later_env late_frames sample_session
            (default sample_session
               (session_of (reportActualWorkDuration later_env late_frames
                              sample_session)))
            _ 333333320 _ _).
  - by_run.
  - by_run.
Defined.

Lemma sendHint_effects_witness :
  mLastHintSent
    (default sample_session
       (session_of (sendHint sample_env CPU_LOAD_RESET sample_session))) = 2 /\
  pidSetPoint
    (mDescriptor
       (default sample_session
          (session_of (sendHint sample_env CPU_LOAD_RESET sample_session))))
    = Z.max 162 0 /\
  manager_calls (events_of (sendHint sample_env CPU_LOAD_RESET sample_session))
    = [voteSet 1 ADPF_CPU_LOAD_RESET 480 1024 1000 166666660].
Proof.
  refine (sendHint_effects sample_env CPU_LOAD_RESET sample_session _ _
            333333320 166666660 _ _ _ _ _ _).
  - by_run.
  - by_run.
  - vm_compute. split; congruence.
  - vm_compute. split; congruence.
  - vm_compute. split; congruence.
  - by_run.
Defined.

Lemma lifetime_invariant_witness :
  session_invariant
    (default sample_session (session_of (run_calls short_life sample_session))).
Proof.
  refine (lifetime_invariant sample_env 1 100 10001 [5] 16666666 short_life
            sample_session _ sample_construction
            (events_of (run_calls short_life sample_session))
            [ok; ok; EX_ILLEGAL_STATE] _ _).
  - by_run.
  - by_run.
Defined.

Lemma removed_exactly_once_witness :
  removals
    (sample_construction ++ events_of (run_calls short_life sample_session))
  = 1%nat.
Proof.
  refine (proj1 (removed_exactly_once sample_env sample_env 1 100 10001 [5]
                   16666666 short_life sample_session
                   (default sample_session
                      (session_of (run_calls short_life sample_session)))
                   sample_construction _ [ok; ok; EX_ILLEGAL_STATE] _ _)).
  - by_run.
  - by_run.
Defined.

Lemma new_session_target_witness :
  targetNs (mDescriptor sample_session) = 16666666 /\
  pidSetPoint (mDescriptor sample_session) = 0.
Proof.
  destruct (new_session_target sample_env 1 100 10001 [5] 16666666
              sample_session sample_construction) as (Ht & Hp & _).
  - by_run.
  - split; [exact Ht | exact Hp].
Defined.

Lemma report_keeps_last_error_witness :
  previous_error
    (mDescriptor
       (default sample_session
          (session_of (reportActualWorkDuration windowed_env late_frames
                         sample_session))))
  = ns_to_100us (Int.to_int64 (21666666 - 16666666)).
Proof.
  refine (report_keeps_last_error windowed_env late_frames sample_session _
            (events_of (reportActualWorkDuration windowed_env late_frames
                          sample_session))
            (mkWorkDuration 30 21666666) _ _ _ _ _).
  - repeat split; vm_compute; congruence.
  - vm_compute. congruence.
  - reflexivity.
  - reflexivity.
  - by_run.
Defined.

Lemma proportional_sum_over_window_witness :
  acc_err_sum
    (pid_accumulate windowed_profile (mDescriptor sample_session) late_frames)
  = Int.to_int64
      (sum_errors 16666666 (drop (Z.to_nat (Z.max 0 (3 - 5))) late_frames)).
Proof.
  refine (proportional_sum_over_window windowed_profile
            (mDescriptor sample_session) late_frames _ _ _).
  - repeat split; vm_compute; congruence.
  - vm_compute. congruence.
  - discriminate.
Defined.

Lemma derivative_is_change_of_error_witness :
  acc_derivative_sum
    (pid_accumulate windowed_profile (mDescriptor sample_session) late_frames)
  = sample_error 16666666 (mkWorkDuration 30 21666666)
    - sample_error 16666666 (mkWorkDuration 20 29666666).
Proof.
  refine (proj1 (proj1 (derivative_is_change_of_error windowed_profile
                   (mDescriptor sample_session) late_frames
                   (mkWorkDuration 30 21666666) _ _ _
                   3 0 0 2 0 _ _ _ _ _) _
                   (mkWorkDuration 20 29666666) _)).
  - repeat split; vm_compute; congruence.
  - vm_compute. congruence.
  - reflexivity.
  - reflexivity.
  - reflexivity.
  - reflexivity.
  - reflexivity.
  - reflexivity.
  - lia.
  - reflexivity.
Defined.

(** ** From the PID outputs to the set point *)

Ltac pick_event :=
  cbn; repeat first [left; reflexivity | right].

(** X22. Under PID control a successful report computes its three
    outputs from the accumulators of the batch: the proportional one from
    the windowed sum of errors, with the over- or the under-shoot gain by
    its sign, averaged over the window; the integral one from the clamped
    integral; the derivative one from the windowed change of error, by
    the target in units of 100 us and the window.  Each is cut to an
    [int64_t]; their sum is the boost.  The report traces the outputs and
    the boost as [int32_t]s, and stores as the set point the old set point
    plus the boost, as [int]s, clamped from above by the profile's high
    bound and then from below by its low bound. *)
Theorem report_applies_boost (env : Env) (ds : list WorkDuration)
    (s s' : PowerHintSession) (ev : list Event) :
  mPidOn (profile env) = true ->
  reportActualWorkDuration env ds s = Some (ok, s', ev) ->
  let cfg := profile env in
  let n := Z.of_nat (List.length ds) in
  let acc := pid_accumulate cfg (mDescriptor s) ds in
  let P := acc_err_sum acc in
  let D := acc_derivative_sum acc in
  exists pOut iOut dOut,
    Double.to_int64
      (Double.div
         (Double.mul (if 0 <? P then mPidPo cfg else mPidPu cfg)
            (Double.of_int P))
         (Double.of_int (n - window_start (mSamplingWindowP cfg) n)))
    = Some pOut /\
    Double.to_int64
      (Double.mul (mPidI cfg) (Double.of_int (acc_integral_error acc)))
    = Some iOut /\
    Double.to_int64
      (Double.div
         (Double.div
            (Double.mul (if 0 <? D then mPidDo cfg else mPidDu cfg)
               (Double.of_int D))
            (Double.of_int (ns_to_100us (targetNs (mDescriptor s)))))
         (Double.of_int (n - window_start (mSamplingWindowD cfg) n)))
    = Some dOut /\
    let boost := Int.to_int64 (Int.to_int64 (pOut + iOut) + dOut) in
    In (ATRACE_INT trace_pid_pOut (Int.to_int32 pOut)) ev /\
    In (ATRACE_INT trace_pid_iOut (Int.to_int32 iOut)) ev /\
    In (ATRACE_INT trace_pid_dOut (Int.to_int32 dOut)) ev /\
    In (ATRACE_INT trace_pid_output (Int.to_int32 boost)) ev /\
    pidSetPoint (mDescriptor s') =
      Z.max (Int.to_int32 (mUclampMinLow (profile env)))
        (Z.min (Int.to_int32 (mUclampMinHigh (profile env)))
           (Int.to_int32
              (pidSetPoint (mDescriptor s) + Int.to_int32 boost))).
Proof.
  intros Hon H cfg n acc P D.
  destruct (report_success_passed_guards _ _ _ _ _ H) as (Ho & Ht & Hne & Ha).
  refine (wp_elim (reportActualWorkDuration env ds)
            (fun _ s2 ev2 =>
               exists pOut iOut dOut,
                 Double.to_int64
                   (Double.div
                      (Double.mul (if 0 <? P then mPidPo cfg else mPidPu cfg)
                         (Double.of_int P))
                      (Double.of_int
                         (n - window_start (mSamplingWindowP cfg) n)))
                 = Some pOut /\
                 Double.to_int64
                   (Double.mul (mPidI cfg)
                      (Double.of_int (acc_integral_error acc)))
                 = Some iOut /\
                 Double.to_int64
                   (Double.div
                      (Double.div
                         (Double.mul
                            (if 0 <? D then mPidDo cfg else mPidDu cfg)
                            (Double.of_int D))
                         (Double.of_int
                            (ns_to_100us (targetNs (mDescriptor s)))))
                      (Double.of_int
                         (n - window_start (mSamplingWindowD cfg) n)))
                 = Some dOut /\
                 let boost :=
                   Int.to_int64 (Int.to_int64 (pOut + iOut) + dOut) in
                 In (ATRACE_INT trace_pid_pOut (Int.to_int32 pOut)) ev2 /\
                 In (ATRACE_INT trace_pid_iOut (Int.to_int32 iOut)) ev2 /\
                 In (ATRACE_INT trace_pid_dOut (Int.to_int32 dOut)) ev2 /\
                 In (ATRACE_INT trace_pid_output (Int.to_int32 boost)) ev2 /\
                 pidSetPoint (mDescriptor s2) =
                   Z.max (Int.to_int32 (mUclampMinLow (profile env)))
                     (Z.min (Int.to_int32 (mUclampMinHigh (profile env)))
                        (Int.to_int32
                           (pidSetPoint (mDescriptor s)
                            + Int.to_int32 boost))))
            s _ _ _ _ H).
  report_wp Ho Ht Hne Ha. rewrite Hon. cbn [negb].
  wp_go; session_simpl_all; session_simpl;
    eexists _, _, _;
    (split; [eassumption|]); (split; [eassumption|]);
    (split; [eassumption|]); cbv zeta;
    (split; [pick_event|]); (split; [pick_event|]);
    (split; [pick_event|]); (split; [pick_event|]); reflexivity.
Qed.

Lemma report_applies_boost_witness :
  exists s' ev,
    reportActualWorkDuration windowed_env late_frames sample_session
    = Some (ok, s', ev) /\
    In (ATRACE_INT trace_pid_pOut 93) ev /\
    In (ATRACE_INT trace_pid_iOut 256) ev /\
    In (ATRACE_INT trace_pid_dOut 0) ev /\
    In (ATRACE_INT trace_pid_output 349) ev /\
    pidSetPoint (mDescriptor s') = 349.
Proof.
  destruct (reportActualWorkDuration windowed_env late_frames sample_session)
    as [[[st s'] ev]|] eqn:E; [|vm_compute in E; discriminate E].
  assert (Hst : st = ok) by (vm_compute in E; congruence).
  subst st.
  destruct (report_applies_boost windowed_env late_frames sample_session
              s' ev eq_refl E)
    as (pOut & iOut & dOut & Hp & Hi & Hd & H1 & H2 & H3 & H4 & H5).
  exists s', ev. split; [reflexivity|].
  vm_compute in Hp, Hi, Hd.
  injection Hp as <-. injection Hi as <-. injection Hd as <-.
  split; [exact H1|]. split; [exact H2|]. split; [exact H3|].
  split; [exact H4|]. rewrite H5. vm_compute. reflexivity.
Defined.
